(** * lucia-auth: session lifecycle, request validation and storage adapters

    A shallow embedding of the parts of the repository that the
    specification talks about:

    - [Query]: the SQL query-block resolver ([resolveQueryBlock],
      [createOperator.resolveQueryBlocks]);
    - [Db], [Mysql2], [Prisma]: the storage adapters ([setUser],
      [setSession], [deleteNonPrimaryKey]) over a small model of the
      tables they write;
    - [Request]: the per-request validator ([AuthRequest]) and the
      origin check ([isValidRequestOrigin]);
    - [Expiration], [SessionManager]: the expiration policy and the
      session operations that [AuthRequest] calls into;
    - [Operator], [QueryShape], [Knex]: the operator over a runner, the
      blocks without their values, and the Knex adapter's joined read;
    - [Examples], [MoreExamples]: concrete inputs, on which the
      statements are run.

    Asynchronous functions are run to completion one after the other
    (the code awaits every call), with the storage and the observable
    side effects threaded through explicitly. *)

From Stdlib Require Import ZArith Lia.
From stdpp Require Import base strings list gmap pretty.

Open Scope string_scope.
Open Scope list_scope.

(** ** JavaScript values the code distinguishes *)

Module JS.

(** An optional property: [undefined], [null] or a value.  The code
    compares against [null] with [!==], which tells the first two apart. *)
Inductive optional (A : Type) : Type :=
  | undefined
  | null
  | value (a : A).
Arguments undefined {A}.
Arguments null {A}.
Arguments value {A} a.

(** [x ?? d] *)
Definition nullish {A} (x : optional A) (d : option A) : option A :=
  match x with
  | value a => Some a
  | _ => d
  end.

(** [x !== null] *)
Definition not_null {A} (x : optional A) : bool :=
  match x with
  | null => false
  | _ => true
  end.

(** Truthiness of a [string | null]: [null] and the empty string are
    falsy. *)
Definition truthy (x : option string) : option string :=
  match x with
  | Some EmptyString => None
  | Some s => Some s
  | None => None
  end.

(** [hay.includes(needle)] *)
Definition includes (hay needle : string) : bool :=
  match needle with
  | EmptyString => true
  | _ => bool_decide (is_Some (String.index 0 needle hay))
  end.

(** The double quote character as a one-character string. *)
Definition dquote : string := String (Ascii.ascii_of_nat 34) EmptyString.

End JS.

(** ** ExpirationPolicy *)

Module Expiration.

Inductive SessionState := active | idle | dead.

#[global] Instance SessionState_eq_dec : EqDecision SessionState.
Proof. solve_decision. Defined.

(** Modelled from the spec: the expiration-state function of section 4.1
    (its source is not among the files of the repository at hand).
    [now < activePeriodExpiresAt] is active; otherwise
    [now < idlePeriodExpiresAt] is idle; otherwise dead. *)
Definition state (now activePeriodExpiresAt idlePeriodExpiresAt : Z)
  : SessionState :=
  if (now <? activePeriodExpiresAt)%Z then active
  else if (now <? idlePeriodExpiresAt)%Z then idle
  else dead.

End Expiration.

(** ** The query-block resolver *)

Module Query.

(** [ColumnValue = string | number | null | bigint | boolean]; numbers
    are kept as integers, the resolver never computes with them. *)
Inductive ColumnValue :=
  | CString (s : string)
  | CNumber (z : Z)
  | CNull
  | CBigint (z : Z)
  | CBoolean (b : bool).

#[global] Instance ColumnValue_eq_dec : EqDecision ColumnValue.
Proof. solve_decision. Defined.

(** A [Record<string, ColumnValue>]: its own properties, in the order
    [Object.keys] enumerates them. *)
Definition Values := list (string * ColumnValue).

Definition Object_keys (values : Values) : list string := values.*1.

(** [values[k]]; [k] always ranges over [Object_keys values], so the
    [undefined] of a missing property never shows. *)
Fixpoint prop (values : Values) (k : string) : option ColumnValue :=
  match values with
  | [] => None
  | (k', v) :: rest => if decide (k' = k) then Some v else prop rest k
  end.

Definition get (values : Values) (k : string) : ColumnValue :=
  default CNull (prop values k).

Record WhereBlock := {
  column : string;
  comparator : string;
  value : ColumnValue
}.

Inductive Block :=
  | INNER_JOIN (targetTable targetColumn col : string)
  | SELECT (table : string) (columns : list string)
  | RETURNING (columns : list string)
  | INSERT_INTO (table : string) (values : Values)
  | WHERE (w : WhereBlock)
  | AND (whereBlocks : list WhereBlock)
  | DELETE_FROM (table : string)
  | UPDATE (table : string) (values : Values).

(** A query chunk is a template literal: fixed text and positional
    placeholders [$n]. *)
Inductive Piece :=
  | Lit (s : string)
  | Ph (n : nat).

Definition render_piece (p : Piece) : string :=
  match p with
  | Lit s => s
  | Ph n => "$" +:+ pretty n
  end.

Definition render (ps : list Piece) : string :=
  foldr (fun p acc => render_piece p +:+ acc) EmptyString ps.

(** [xs.join(sep)], on chunks that are still in pieces. *)
Fixpoint join {A} (sep : list A) (xs : list (list A)) : list A :=
  match xs with
  | [] => []
  | [x] => x
  | x :: rest => x ++ sep ++ join sep rest
  end.

Definition escapeName (val : string) : string :=
  if decide (val = "*") then val else JS.dquote +:+ val +:+ JS.dquote.

Record ResolvedBlock := {
  queryChunk : list Piece;
  params : list ColumnValue
}.

(** An array inside a template literal is converted with [toString],
    that is [join(",")]. *)
Definition comma : list Piece := [Lit ","].

Definition resolveQueryBlock (block : Block) (paramCount : nat)
  : ResolvedBlock :=
  match block with
  | DELETE_FROM table =>
      {| queryChunk := [Lit ("DELETE FROM " +:+ escapeName table)];
         params := [] |}
  | INNER_JOIN targetTable targetColumn col =>
      {| queryChunk :=
           [Lit ("INNER JOIN " +:+ escapeName targetTable +:+ " ON "
                 +:+ targetColumn +:+ " = " +:+ col)];
         params := [] |}
  | INSERT_INTO table values =>
      let keys := Object_keys values in
      {| queryChunk :=
           [Lit ("INSERT INTO " +:+ escapeName table +:+ " ("
                 +:+ String.concat "," (escapeName <$> keys)
                 +:+ ") VALUES (")]
           ++ join comma
                ((fun i => [Ph (paramCount + i + 1)]) <$> seq 0 (length keys))
           ++ [Lit ")"];
         params := get values <$> keys |}
  | RETURNING columns =>
      {| queryChunk := [Lit ("RETURNING " +:+ String.concat "," columns)];
         params := [] |}
  | SELECT table columns =>
      {| queryChunk :=
           [Lit ("SELECT " +:+ String.concat "," columns +:+ " FROM "
                 +:+ escapeName table)];
         params := [] |}
  | WHERE w =>
      {| queryChunk :=
           [Lit ("WHERE " +:+ column w +:+ " " +:+ comparator w +:+ " ");
            Ph (paramCount + 1)];
         params := [value w] |}
  | UPDATE table values =>
      let keys := Object_keys values in
      {| queryChunk :=
           [Lit ("UPDATE " +:+ escapeName table +:+ " SET ")]
           ++ join comma
                (imap (fun i k =>
                         [Lit (escapeName k +:+ " = ");
                          Ph (paramCount + i + 1)]) keys);
         params := get values <$> keys |}
  | AND whereBlocks =>
      let resolvedConditionQueryBlocks :=
        imap (fun i whereBlock =>
                {| queryChunk :=
                     [Lit (column whereBlock +:+ " " +:+ comparator whereBlock
                           +:+ " ");
                      Ph (paramCount + 1 + i)];
                   params := [value whereBlock] |}) whereBlocks in
      {| queryChunk :=
           [Lit "WHERE "]
           ++ join [Lit " AND "] (queryChunk <$> resolvedConditionQueryBlocks);
         params :=
           foldl (fun acc curr => acc ++ params curr) []
                 resolvedConditionQueryBlocks |}
  end.

Record Query := {
  statement : list Piece;
  qparams : list ColumnValue
}.

(** The [for ... of] loop of [resolveQueryBlocks], with its two
    accumulators. *)
Fixpoint resolveLoop (queryBlocks : list Block)
    (queryChunks : list (list Piece)) (ps : list ColumnValue)
  : list (list Piece) * list ColumnValue :=
  match queryBlocks with
  | [] => (queryChunks, ps)
  | queryBlock :: rest =>
      let resolvedBlock := resolveQueryBlock queryBlock (length ps) in
      resolveLoop rest (queryChunks ++ [queryChunk resolvedBlock])
                  (ps ++ params resolvedBlock)
  end.

Definition resolveQueryBlocks (queryBlocks : list Block) : Query :=
  let '(queryChunks, ps) := resolveLoop queryBlocks [] [] in
  {| statement := join [Lit " "] queryChunks; qparams := ps |}.

(** The text handed to the driver. *)
Definition statementText (q : Query) : string := render (statement q).

(** The placeholder numbers of a statement, left to right. *)
Definition placeholders (ps : list Piece) : list nat :=
  omap (fun p => match p with Ph n => Some n | Lit _ => None end) ps.

(** What the driver executes: each [$n] replaced by the [n]-th
    parameter (counted from 1). *)
Inductive Bound :=
  | BText (s : string)
  | BValue (v : ColumnValue).

Definition bind_piece (ps : list ColumnValue) (p : Piece) : option Bound :=
  match p with
  | Lit s => Some (BText s)
  | Ph 0 => None
  | Ph (S n) => BValue <$> ps !! n
  end.

Definition bind_params (ps : list ColumnValue) (stmt : list Piece)
  : option (list Bound) :=
  mapM (bind_piece ps) stmt.

(** The statement the blocks describe, every value written where its
    own column or condition stands: what the numbering has to achieve. *)
Definition inline_condition (w : WhereBlock) : list Bound :=
  [BText (column w +:+ " " +:+ comparator w +:+ " "); BValue (value w)].

Definition inline_block (block : Block) : list Bound :=
  match block with
  | DELETE_FROM table => [BText ("DELETE FROM " +:+ escapeName table)]
  | INNER_JOIN targetTable targetColumn col =>
      [BText ("INNER JOIN " +:+ escapeName targetTable +:+ " ON "
              +:+ targetColumn +:+ " = " +:+ col)]
  | INSERT_INTO table values =>
      [BText ("INSERT INTO " +:+ escapeName table +:+ " ("
              +:+ String.concat "," (escapeName <$> values.*1)
              +:+ ") VALUES (")]
      ++ join [BText ","] ((fun kv => [BValue kv.2]) <$> values)
      ++ [BText ")"]
  | RETURNING columns => [BText ("RETURNING " +:+ String.concat "," columns)]
  | SELECT table columns =>
      [BText ("SELECT " +:+ String.concat "," columns +:+ " FROM "
              +:+ escapeName table)]
  | WHERE w =>
      [BText ("WHERE " +:+ column w +:+ " " +:+ comparator w +:+ " ");
       BValue (value w)]
  | UPDATE table values =>
      [BText ("UPDATE " +:+ escapeName table +:+ " SET ")]
      ++ join [BText ","]
           ((fun kv => [BText (escapeName kv.1 +:+ " = "); BValue kv.2])
              <$> values)
  | AND whereBlocks =>
      [BText "WHERE "] ++ join [BText " AND "] (inline_condition <$> whereBlocks)
  end.

Definition inline (blocks : list Block) : list Bound :=
  join [BText " "] (inline_block <$> blocks).

(** A JavaScript object has each property name once. *)
Definition wf_block (block : Block) : Prop :=
  match block with
  | INSERT_INTO _ values | UPDATE _ values => NoDup values.*1
  | _ => True
  end.

End Query.

(** ** Thrown values and code that can throw *)

Module Eff.

(** The messages of [LuciaError]. *)
Inductive LuciaErrorMessage :=
  | AUTH_INVALID_SESSION_ID
  | AUTH_INVALID_USER_ID
  | AUTH_INVALID_KEY_ID
  | AUTH_INVALID_PASSWORD
  | AUTH_DUPLICATE_SESSION_ID
  | AUTH_DUPLICATE_KEY_ID.

#[global] Instance LuciaErrorMessage_eq_dec : EqDecision LuciaErrorMessage.
Proof. solve_decision. Defined.

Definition message_text (m : LuciaErrorMessage) : string :=
  match m with
  | AUTH_INVALID_SESSION_ID => "AUTH_INVALID_SESSION_ID"
  | AUTH_INVALID_USER_ID => "AUTH_INVALID_USER_ID"
  | AUTH_INVALID_KEY_ID => "AUTH_INVALID_KEY_ID"
  | AUTH_INVALID_PASSWORD => "AUTH_INVALID_PASSWORD"
  | AUTH_DUPLICATE_SESSION_ID => "AUTH_DUPLICATE_SESSION_ID"
  | AUTH_DUPLICATE_KEY_ID => "AUTH_DUPLICATE_KEY_ID"
  end.

(** What a driver or ORM throws, read as the adapters read it
    ([Partial<QueryError>], [Partial<PossiblePrismaError>]): every
    property may be missing. *)
Record QueryError := {
  code : option string;
  errno : option Z;
  message : option string
}.

#[global] Instance QueryError_eq_dec : EqDecision QueryError.
Proof. solve_decision. Defined.

Inductive Thrown :=
  | LuciaError (m : LuciaErrorMessage)
  | DriverError (e : QueryError).

#[global] Instance Thrown_eq_dec : EqDecision Thrown.
Proof. solve_decision. Defined.

(** [e instanceof LuciaError] *)
Definition instanceof_LuciaError (e : Thrown) : bool :=
  match e with
  | LuciaError _ => true
  | DriverError _ => false
  end.

(** [error.code], [error.errno], [error.message] on a caught value. *)
Definition error_code (e : Thrown) : option string :=
  match e with
  | DriverError q => code q
  | LuciaError _ => None
  end.

Definition error_errno (e : Thrown) : option Z :=
  match e with
  | DriverError q => errno q
  | LuciaError _ => None
  end.

Definition error_message (e : Thrown) : option string :=
  match e with
  | DriverError q => message q
  | LuciaError m => Some (message_text m)
  end.

(** [error.message?.includes(s)], used as a condition. *)
Definition message_includes (e : Thrown) (s : string) : bool :=
  match error_message e with
  | Some m => JS.includes m s
  | None => false
  end.

Inductive Result (A : Type) :=
  | Ok (a : A)
  | Throw (e : Thrown).
Arguments Ok {A} a.
Arguments Throw {A} e.

(** An awaited computation over a state [S]: it returns or throws and
    leaves a state behind either way. *)
Definition M (S A : Type) : Type := S → Result A * S.

Definition ret {S A} (a : A) : M S A := fun s => (Ok a, s).

Definition throw {S A} (e : Thrown) : M S A := fun s => (Throw e, s).

Definition bind {S A B} (m : M S A) (k : A → M S B) : M S B :=
  fun s =>
    match m s with
    | (Ok a, s') => k a s'
    | (Throw e, s') => (Throw e, s')
    end.

(** [try { m } catch (e) { h e }] *)
Definition try_catch {S A} (m : M S A) (h : Thrown → M S A) : M S A :=
  fun s =>
    match m s with
    | (Ok a, s') => (Ok a, s')
    | (Throw e, s') => h e s'
    end.

Definition modify {S} (f : S → S) : M S unit := fun s => (Ok tt, f s).

End Eff.

Notation "'let*' x ':=' m 'in' k" := (Eff.bind m (fun x => k))
  (at level 10, x pattern, m at level 100, k at level 200, only parsing).

(** ** The tables behind the adapters *)

Module Db.
Import Query.

Abbreviation Row := Values.

(** Table name to rows, in insertion order. *)
Abbreviation Tables := (gmap string (list Row)).

Definition rows (t : Tables) (table : string) : list Row :=
  default [] (t !! table).

(** The schema of the adapters: [id] is the primary key of every table,
    and [user_id] of the key and session tables references the user
    table. *)
Definition user_table : string := "auth_user".
Definition key_table : string := "auth_key".
Definition session_table : string := "auth_session".

Definition references_user (table : string) : bool :=
  bool_decide (table = key_table ∨ table = session_table).

Definition has (col : string) (v : ColumnValue) (r : Row) : bool :=
  bool_decide (prop r col = Some v).

Inductive Violation :=
  | NullColumn (table col : string)
  | DuplicatePrimary (table : string) (id : ColumnValue)
  | MissingReference (table col : string) (v : ColumnValue).

#[global] Instance Violation_eq_dec : EqDecision Violation.
Proof. solve_decision. Defined.

(** [INSERT INTO table ...] under the constraints of the schema. *)
Definition insert (table : string) (r : Row) (t : Tables)
  : Violation + Tables :=
  match prop r "id" with
  | None | Some CNull => inl (NullColumn table "id")
  | Some id =>
      if existsb (has "id" id) (rows t table)
      then inl (DuplicatePrimary table id)
      else if references_user table then
        match prop r "user_id" with
        | None | Some CNull => inl (NullColumn table "user_id")
        | Some uid =>
            if existsb (has "id" uid) (rows t user_table)
            then inr (<[table := rows t table ++ [r]]> t)
            else inl (MissingReference table "user_id" uid)
        end
      else inr (<[table := rows t table ++ [r]]> t)
  end.

(** A row matches a conjunction of [column = value] conditions. *)
Definition matches (conds : list (string * ColumnValue)) (r : Row) : bool :=
  forallb (fun c => has c.1 c.2 r) conds.

(** [DELETE FROM table WHERE ...]; deleting nothing is not an error. *)
Definition delete_where (table : string) (conds : list (string * ColumnValue))
    (t : Tables) : Tables :=
  <[table := filter (fun r => matches conds r = false) (rows t table)]> t.

(** The effect of a statement sent through the operator, read off the
    blocks it is resolved from.  The adapter functions modelled here
    send single [INSERT INTO] statements; anything else is left without
    an effect on the tables. *)
Definition exec (blocks : list Block) (t : Tables) : Violation + Tables :=
  match blocks with
  | [INSERT_INTO table values] => insert table values t
  | _ => inr t
  end.

(** Runs a batch in order; nothing of it stays when a step fails. *)
Fixpoint exec_all (steps : list (Tables → Violation + Tables)) (t : Tables)
  : Violation + Tables :=
  match steps with
  | [] => inr t
  | step :: rest =>
      match step t with
      | inl v => inl v
      | inr t' => exec_all rest t'
      end
  end.

(** [{ ...o, k: v }]: an own property keeps its place and takes the new
    value, a new one comes last. *)
Fixpoint assign (o : Values) (k : string) (v : ColumnValue) : Values :=
  match o with
  | [] => [(k, v)]
  | (k', v') :: rest =>
      if decide (k' = k) then (k', v) :: rest else (k', v') :: assign rest k v
  end.

Definition spread (o extra : Values) : Values :=
  foldl (fun acc kv => assign acc kv.1 kv.2) o extra.

Definition show (v : ColumnValue) : string :=
  match v with
  | CString s => s
  | CNumber z | CBigint z => pretty z
  | CNull => "NULL"
  | CBoolean true => "1"
  | CBoolean false => "0"
  end.

End Db.

(** ** The mysql2 adapter *)

Module Mysql2.
Import Eff Query.

(** A connection taken out of the pool.  Statements run on it after
    [beginTransaction] stay private to it until [commit]; [rollback]
    drops them. *)
Record Connection := {
  inTransaction : bool;
  pending : list (list Block)
}.

Record Server := {
  committed : Db.Tables;
  connections : list Connection
}.

Definition fresh_connection : Connection :=
  {| inTransaction := false; pending := [] |}.

(** The errors of the MySQL server for the violations of the schema. *)
Definition queryError (v : Db.Violation) : QueryError :=
  match v with
  | Db.DuplicatePrimary table id =>
      {| code := Some "ER_DUP_ENTRY"; errno := Some 1062%Z;
         message := Some ("Duplicate entry '" +:+ Db.show id +:+ "' for key '"
                          +:+ table +:+ ".PRIMARY'") |}
  | Db.MissingReference table col _ =>
      {| code := Some "ER_NO_REFERENCED_ROW_2"; errno := Some 1452%Z;
         message :=
           Some ("Cannot add or update a child row: a foreign key constraint "
                 +:+ "fails (`lucia`.`" +:+ table +:+ "`, CONSTRAINT `"
                 +:+ table +:+ "_ibfk_1` FOREIGN KEY (`" +:+ col
                 +:+ "`) REFERENCES `auth_user` (`id`))") |}
  | Db.NullColumn _ col =>
      {| code := Some "ER_BAD_NULL_ERROR"; errno := Some 1048%Z;
         message := Some ("Column '" +:+ col +:+ "' cannot be null") |}
  end.

Definition replay (stmts : list (list Block)) (t : Db.Tables)
  : Db.Violation + Db.Tables :=
  Db.exec_all (Db.exec <$> stmts) t.

(** [db.query(...)] on the pool: the statement runs on a connection of
    the pool's own choosing, outside any transaction, and is committed
    at once. *)
Definition pool_query (blocks : list Block) : M Server unit :=
  fun s =>
    match Db.exec blocks (committed s) with
    | inl v => (Throw (DriverError (queryError v)), s)
    | inr t => (Ok tt, {| committed := t; connections := connections s |})
    end.

(** [db.getConnection()]: a connection of its own, named by its
    position. *)
Definition getConnection : M Server nat :=
  fun s =>
    (Ok (length (connections s)),
     {| committed := committed s;
        connections := connections s ++ [fresh_connection] |}).

Definition set_connection (c : nat) (conn : Connection) : M Server unit :=
  modify (fun s =>
            {| committed := committed s;
               connections := <[c := conn]> (connections s) |}).

Definition beginTransaction (c : nat) : M Server unit :=
  set_connection c {| inTransaction := true; pending := [] |}.

Definition rollback (c : nat) : M Server unit :=
  set_connection c fresh_connection.

Definition commit (c : nat) : M Server unit :=
  fun s =>
    match connections s !! c with
    | Some conn =>
        match replay (pending conn) (committed s) with
        | inr t =>
            (Ok tt,
             {| committed := t;
                connections := <[c := fresh_connection]> (connections s) |})
        | inl v => (Throw (DriverError (queryError v)), s)
        end
    | None => (Ok tt, s)
    end.

(** [connection.query(...)]: a statement on a held connection. *)
Definition connection_query (c : nat) (blocks : list Block) : M Server unit :=
  fun s =>
    match connections s !! c with
    | Some conn =>
        if inTransaction conn then
          match replay (pending conn ++ [blocks]) (committed s) with
          | inr _ =>
              (Ok tt,
               {| committed := committed s;
                  connections :=
                    <[c := {| inTransaction := true;
                              pending := pending conn ++ [blocks] |}]>
                      (connections s) |})
          | inl v => (Throw (DriverError (queryError v)), s)
          end
        else pool_query blocks s
    | None => pool_query blocks s
    end.

(** Modelled from the spec: the runner [mysql2Runner(db)] (./runner.js
    is not among the sources).  Section 6 fixes the storage contract the
    adapter implements and no more; what the runner can reach is fixed
    by its call site: it is built from the pool [db] alone, once, before
    any connection is taken, so its [run] is a query on the pool. *)
Definition runner_run (blocks : list Block) : M Server unit :=
  pool_query blocks.

(** [operator.run]: the blocks are resolved ([Query.resolveQueryBlocks])
    and the statement and its parameters go to the runner. *)
Definition operator_run (createQueryBlocks : list Block) : M Server unit :=
  runner_run createQueryBlocks.

Definition transaction {A} (execute : M Server A) : M Server unit :=
  let* connection := getConnection in
  try_catch
    (let* _ := beginTransaction connection in
     let* _ := execute in
     let* _ := commit connection in
     ret tt)
    (fun e =>
       let* _ := rollback connection in
       throw e).

Definition is_duplicate_primary (e : Thrown) : bool :=
  bool_decide (error_code e = Some "ER_DUP_ENTRY")
  && message_includes e "PRIMARY".

Definition is_foreign_key_user_id (e : Thrown) : bool :=
  bool_decide (error_errno e = Some 1452%Z)
  && message_includes e "(`user_id`)".

Definition setUser (userId : string) (attributes : Values)
    (key : option Values) : M Server unit :=
  let user := Db.spread [("id", CString userId)] attributes in
  try_catch
    (match key with
     | Some key =>
         transaction
           (let* _ := operator_run [INSERT_INTO Db.user_table user] in
            operator_run [INSERT_INTO Db.key_table key])
     | None => operator_run [INSERT_INTO Db.user_table user]
     end)
    (fun e =>
       if is_duplicate_primary e then throw (LuciaError AUTH_DUPLICATE_KEY_ID)
       else throw e).

(** [coreAdapter.setSession] (../core.js) is a parameter: whatever it
    does, [setSession] only looks at what it throws. *)
Definition setSession {S} (coreAdapter_setSession : Values → M S unit)
    (session : Values) : M S unit :=
  try_catch
    (coreAdapter_setSession session)
    (fun e =>
       if is_foreign_key_user_id e then throw (LuciaError AUTH_INVALID_USER_ID)
       else if is_duplicate_primary e
            then throw (LuciaError AUTH_DUPLICATE_SESSION_ID)
            else throw e).

(** [coreAdapter.setKey] (../core.js) is a parameter, as for
    [setSession]. *)
Definition setKey {S} (coreAdapter_setKey : Values → M S unit)
    (key : Values) : M S unit :=
  try_catch
    (coreAdapter_setKey key)
    (fun e =>
       if is_foreign_key_user_id e then throw (LuciaError AUTH_INVALID_USER_ID)
       else if is_duplicate_primary e
            then throw (LuciaError AUTH_DUPLICATE_KEY_ID)
            else throw e).

End Mysql2.

(** ** The Prisma adapter *)

Module Prisma.
Import Eff Query.

(** The errors of the Prisma client for the violations of the schema. *)
Definition prismaError (v : Db.Violation) : QueryError :=
  match v with
  | Db.DuplicatePrimary _ _ =>
      {| code := Some "P2002"; errno := None;
         message := Some "Unique constraint failed on the fields: (`id`)" |}
  | Db.MissingReference _ col _ =>
      {| code := Some "P2003"; errno := None;
         message :=
           Some ("Foreign key constraint failed on the field: `" +:+ col
                 +:+ "`") |}
  | Db.NullColumn _ col =>
      {| code := Some "P2011"; errno := None;
         message :=
           Some ("Null constraint violation on the fields: (`" +:+ col
                 +:+ "`)") |}
  end.

(** [prisma.model.create({ data })] *)
Definition create (table : string) (data : Values) : M Db.Tables Values :=
  fun t =>
    match Db.insert table data t with
    | inl v => (Throw (DriverError (prismaError v)), t)
    | inr t' => (Ok data, t')
    end.

(** [prisma.$transaction([...creates])]: all of them or none. *)
Definition transaction (creates : list (string * Values))
  : M Db.Tables (list Values) :=
  fun t =>
    match Db.exec_all ((fun c => Db.insert c.1 c.2) <$> creates) t with
    | inl v => (Throw (DriverError (prismaError v)), t)
    | inr t' => (Ok (creates.*2), t')
    end.

(** [prisma.model.deleteMany({ where })] on a database that answers:
    the records that match are removed, and matching none is not an
    error.  A client that cannot reach its database rejects instead;
    the model leaves that out, so what is stated of the functions built
    on [deleteMany] describes the calls that reach the database. *)
Definition deleteMany (table : string) (where_ : list (string * ColumnValue))
  : M Db.Tables unit :=
  modify (Db.delete_where table where_).

Definition is_unique_id (e : Thrown) : bool :=
  bool_decide (error_code e = Some "P2002") && message_includes e "`id`".

Definition is_foreign_key (e : Thrown) : bool :=
  bool_decide (error_code e = Some "P2003").

Definition setUser (userId : string) (attributes : Values)
    (key : option Values) : M Db.Tables (option Values) :=
  let data := Db.spread [("id", CString userId)] attributes in
  match key with
  | None =>
      let* databaseUser := create Db.user_table data in
      ret (Some databaseUser)
  | Some key =>
      try_catch
        (let* created :=
           transaction [(Db.user_table, data); (Db.key_table, key)] in
         ret (head created))
        (fun e =>
           if is_unique_id e then throw (LuciaError AUTH_DUPLICATE_KEY_ID)
           else throw e)
  end.

Definition deleteNonPrimaryKey (keyId : string) : M Db.Tables unit :=
  deleteMany Db.key_table
    [("id", CString keyId); ("primary_key", CBoolean false)].

(** [prisma.authSession.create] is a parameter, so that it may fail in
    any way a client can. *)
Definition setSession {S A} (authSession_create : Values → M S A)
    (session : Values) : M S unit :=
  try_catch
    (let* _ := authSession_create session in
     ret tt)
    (fun e =>
       if is_foreign_key e then throw (LuciaError AUTH_INVALID_USER_ID)
       else if is_unique_id e
            then throw (LuciaError AUTH_DUPLICATE_SESSION_ID)
            else throw e).

(** The client's error for a [where] that selects no record. *)
Definition recordNotFound (cause : string) : QueryError :=
  {| code := Some "P2025"; errno := None; message := Some cause |}.

Definition is_record_not_found (e : Thrown) : bool :=
  bool_decide (error_code e = Some "P2025").

Definition by_id (id : string) (r : Values) : bool :=
  Db.has "id" (CString id) r.

(** [prisma.model.findUnique({ where: { id } })] *)
Definition findUnique (table : string) (id : string)
  : M Db.Tables (option Values) :=
  fun t => (Ok (List.find (by_id id) (Db.rows t table)), t).

(** [prisma.model.findMany({ where })] *)
Definition findMany (table : string) (where_ : list (string * ColumnValue))
  : M Db.Tables (list Values) :=
  fun t => (Ok (filter (fun r => Db.matches where_ r = true) (Db.rows t table)),
            t).

(** [prisma.model.update({ data, where: { id } })]: the record takes the
    given columns; without a record the client throws.  The adapter
    never updates [id], and no constraint on the other columns is
    modelled. *)
Definition update (table : string) (id : string) (data : Values)
  : M Db.Tables Values :=
  fun t =>
    match List.find (by_id id) (Db.rows t table) with
    | None =>
        (Throw (DriverError (recordNotFound "Record to update not found.")), t)
    | Some r =>
        (Ok (Db.spread r data),
         <[table := (fun x => if by_id id x then Db.spread x data else x)
                      <$> Db.rows t table]> t)
    end.

(** [prisma.model.delete({ where: { id } })]: unlike [deleteMany], it
    throws when there is no such record. *)
Definition delete (table : string) (id : string) : M Db.Tables Values :=
  fun t =>
    match List.find (by_id id) (Db.rows t table) with
    | None =>
        (Throw (DriverError
                  (recordNotFound "Record to delete does not exist.")), t)
    | Some r =>
        (Ok r, Db.delete_where table [("id", CString id)] t)
    end.

Definition getUser (userId : string) : M Db.Tables (option Values) :=
  findUnique Db.user_table userId.


Definition setKey (key : Values) : M Db.Tables unit :=
  try_catch
    (let* _ := create Db.key_table key in
     ret tt)
    (fun e =>
       if is_foreign_key e then throw (LuciaError AUTH_INVALID_USER_ID)
       else if is_unique_id e then throw (LuciaError AUTH_DUPLICATE_KEY_ID)
       else throw e).

Section Transforms.
(** [transformDatabaseKey] and [transformDatabaseSession] (../src/utils)
    are parameters. *)
Context {Key Session : Type}.
Variable transformDatabaseKey : Values → Key.
Variable transformDatabaseSession : Values → Session.

Definition getKey (keyId : string) : M Db.Tables (option Key) :=
  let* databaseKey := findUnique Db.key_table keyId in
  match databaseKey with
  | None => ret None
  | Some k => ret (Some (transformDatabaseKey k))
  end.

Definition getKeysByUserId (userId : string) : M Db.Tables (list Key) :=
  let* keys := findMany Db.key_table [("user_id", CString userId)] in
  ret (transformDatabaseKey <$> keys).

Definition getSession (sessionId : string) : M Db.Tables (option Session) :=
  let* session := findUnique Db.session_table sessionId in
  match session with
  | None => ret None
  | Some s => ret (Some (transformDatabaseSession s))
  end.

Definition getSessionsByUserId (userId : string)
  : M Db.Tables (list Session) :=
  let* sessions :=
    findMany Db.session_table [("user_id", CString userId)] in
  ret (transformDatabaseSession <$> sessions).

End Transforms.

Definition updateKeyPassword (keyId : string) (hashedPassword : ColumnValue)
  : M Db.Tables Values :=
  try_catch
    (update Db.key_table keyId [("hashed_password", hashedPassword)])
    (fun e =>
       if is_record_not_found e then throw (LuciaError AUTH_INVALID_KEY_ID)
       else throw e).

Definition deleteKeysByUserId (userId : string) : M Db.Tables unit :=
  deleteMany Db.key_table [("user_id", CString userId)].

Definition deleteSession (sessionId : string) : M Db.Tables unit :=
  let* _ := delete Db.session_table sessionId in
  ret tt.

Definition deleteSessionsByUserId (userId : string) : M Db.Tables unit :=
  deleteMany Db.session_table [("user_id", CString userId)].

End Prisma.

(** ** The operator over a runner *)

Module Operator.
Import Eff Query.

(** What [runner.get] resolves to: nothing, an array of rows, or one
    row. *)
Inductive RunnerResult :=
  | RNullish
  | RRows (rows : list Values)
  | RRow (row : Values).

Record Runner (S : Type) := {
  runner_get : string → list ColumnValue → M S RunnerResult;
  runner_run : string → list ColumnValue → M S unit
}.
Arguments runner_get {S} _ _ _.
Arguments runner_run {S} _ _ _.

Section createOperator.
Context {S : Type}.
Variable runner : Runner S.

(** The blocks are what [createQueryBlocks(ctx)] returns: the functions
    of [ctx] are the constructors of [Block]. *)
Definition write (createQueryBlocks : list Block) : Query :=
  resolveQueryBlocks createQueryBlocks.

Definition get (createQueryBlocks : list Block) : M S (option Values) :=
  let query := write createQueryBlocks in
  let* result := runner_get runner (statementText query) (qparams query) in
  match result with
  | RRows rows => ret (head rows)
  | RRow row => ret (Some row)
  | RNullish => ret None
  end.

Definition getAll (createQueryBlocks : list Block) : M S (list Values) :=
  let query := write createQueryBlocks in
  let* result := runner_get runner (statementText query) (qparams query) in
  match result with
  | RNullish => ret []
  | RRow row => ret [row]
  | RRows rows => ret rows
  end.

Definition run (createQueryBlocks : list Block) : M S unit :=
  let query := write createQueryBlocks in
  runner_run runner (statementText query) (qparams query).

End createOperator.

End Operator.

(** ** Blocks without their values *)

Module QueryShape.
Import Query.

Definition blank_where (w : WhereBlock) : WhereBlock :=
  {| column := column w; comparator := comparator w; value := CNull |}.

Definition blank_values (values : Values) : Values :=
  (fun kv => (kv.1, CNull)) <$> values.

(** The block with every value replaced by [null]: tables, columns and
    comparators only. *)
Definition blank (block : Block) : Block :=
  match block with
  | INSERT_INTO table values => INSERT_INTO table (blank_values values)
  | UPDATE table values => UPDATE table (blank_values values)
  | WHERE w => WHERE (blank_where w)
  | AND ws => AND (blank_where <$> ws)
  | other => other
  end.

(** How many values a block carries. *)
Definition arity (block : Block) : nat :=
  match block with
  | INSERT_INTO _ values | UPDATE _ values => length values
  | WHERE _ => 1
  | AND ws => length ws
  | _ => 0
  end.

End QueryShape.

(** ** The Knex adapter *)

Module Knex.
Import Eff Query.

(** [this.tables] *)
Record TableNames := {
  users : string;
  sessions : string
}.

(** The database behind [this.knex]: its tables, and the error of the
    connection when it cannot be reached. *)
Record Database := {
  relations : Db.Tables;
  unreachable : option QueryError
}.

(** PostgreSQL's error for a table that does not exist. *)
Definition undefined_table (name : string) : QueryError :=
  {| code := Some "42P01"; errno := None;
     message := Some ("relation " +:+ JS.dquote +:+ name +:+ JS.dquote
                      +:+ " does not exist") |}.

(** The rows of a table, as a query gets at them. *)
Definition relation (db : Database) (name : string)
  : QueryError + list Db.Row :=
  match unreachable db with
  | Some e => inl e
  | None =>
      match relations db !! name with
      | Some rows => inr rows
      | None => inl (undefined_table name)
      end
  end.

(** SQL [=]: never true of [NULL] or of a column that is missing. *)
Definition sql_eq (a b : option ColumnValue) : bool :=
  match a, b with
  | Some CNull, _ | _, Some CNull | None, _ | _, None => false
  | Some x, Some y => bool_decide (x = y)
  end.

(** Both columns hold the same value, and it is not [NULL]. *)
Definition same_value (a b : option ColumnValue) : Prop :=
  ∃ v, v ≠ CNull ∧ a = Some v ∧ b = Some v.

(** A row of the selection: the columns [user] and [session]. *)
Record Selected {Json : Type} := {
  user : Json;
  session : Json
}.
Arguments Selected : clear implicits.

Section Adapter.
(** [TO_JSON] is the database's function, and
    [transformIntoDatabaseUser] and [transformIntoDatabaseSession] come
    from the base class (./base.js): parameters.  The transforms get
    what [TO_JSON] made of a row, not the row. *)
Context {Json DatabaseUser DatabaseSession : Type}.
Variable TO_JSON : Values → Json.
Variable transformIntoDatabaseUser : Json → DatabaseUser.
Variable transformIntoDatabaseSession : Json → DatabaseSession.
Variable tables : TableNames.

(** Awaiting
    [knex(sessions)
       .select([raw(TO_JSON(users.* ) AS user),
                raw(TO_JSON(sessions.* ) AS session)])
       .innerJoin(users, sessions.userId, "=", users.userId)
       .where(sessions.sessionId, "=", sessionId)]:
    it rejects when the database does, and gives otherwise, for every
    session row with that id and every user row that has its [userId],
    the two rows as [TO_JSON] renders them. *)
Definition select_user_and_session (sessionId : string)
  : M Database (list (Selected Json)) :=
  fun db =>
    match relation db (sessions tables) with
    | inl e => (Throw (DriverError e), db)
    | inr session_rows =>
        match relation db (users tables) with
        | inl e => (Throw (DriverError e), db)
        | inr user_rows =>
            (Ok (s ← filter (fun s => sql_eq (prop s "sessionId")
                                        (Some (CString sessionId)) = true)
                            session_rows;
                 u ← filter (fun u => sql_eq (prop s "userId")
                                        (prop u "userId") = true)
                            user_rows;
                 [{| user := TO_JSON u; session := TO_JSON s |}]),
             db)
        end
    end.

Definition getSessionAndUser (sessionId : string)
  : M Database (option DatabaseSession * option DatabaseUser) :=
  let* selected := select_user_and_session sessionId in
  match selected with
  | [] => ret (None, None)
  | result :: _ =>
      let user := transformIntoDatabaseUser (user result) in
      let session := transformIntoDatabaseSession (session result) in
      ret (Some session, Some user)
  end.

End Adapter.

End Knex.

(** ** The signatures of constraint violations *)

(** What the drivers document about the errors of a violated
    constraint, stated on the properties of the thrown value and not
    through the tests of the adapters. *)
Module Signature.
Import Eff.

(** The error has a message and the message contains [text]. *)
Definition message_has (e : Thrown) (text : string) : Prop :=
  ∃ m, error_message e = Some m ∧ JS.includes m text = true.

(** MySQL error 1452 (a child row without its parent) naming the
    column [user_id]. *)
Definition mysql_foreign_key_on_user_id (e : Thrown) : Prop :=
  error_errno e = Some 1452%Z ∧ message_has e "(`user_id`)".

(** MySQL [ER_DUP_ENTRY] on the primary key. *)
Definition mysql_duplicate_primary (e : Thrown) : Prop :=
  error_code e = Some "ER_DUP_ENTRY" ∧ message_has e "PRIMARY".

(** Prisma P2003, a foreign key constraint that failed. *)
Definition prisma_foreign_key (e : Thrown) : Prop :=
  error_code e = Some "P2003".

(** Prisma P2002, a unique constraint that failed, on the field [id]. *)
Definition prisma_unique_on_id (e : Thrown) : Prop :=
  error_code e = Some "P2002" ∧ message_has e "`id`".

End Signature.

(** ** The request validator *)

Module Request.
Import Eff.

(** A [Session] as the request layer sees it. *)
Record Session := {
  sessionId : string;
  userId : string;
  activePeriodExpiresAt : Z;
  idlePeriodExpiresAt : Z;
  state : Expiration.SessionState;
  fresh : bool;
  attributes : list (string * string)
}.

#[global] Instance Session_eq_dec : EqDecision Session.
Proof. solve_decision. Defined.

(** *** Headers *)

(** The entries of a [Headers] object; names compare without case. *)
Definition Headers : Type := list (string * string).

Definition lower_ascii (a : Ascii.ascii) : Ascii.ascii :=
  let n := Ascii.nat_of_ascii a in
  if (65 <=? n)%nat && (n <=? 90)%nat then Ascii.ascii_of_nat (n + 32) else a.

Fixpoint lower (s : string) : string :=
  match s with
  | EmptyString => EmptyString
  | String a rest => String (lower_ascii a) (lower rest)
  end.

(** [headers.get(name)]: [null] without an entry of that name, else the
    values of the entries joined with a comma and a space. *)
Definition headers_get (h : Headers) (name : string) : option string :=
  match filter (fun nv => lower nv.1 = lower name) h with
  | [] => None
  | found => Some (String.concat ", " found.*2)
  end.

Record LuciaRequest := {
  method : string;
  url : option string;
  headers : Headers
}.

(** [RequestContext]; its [setCookie] is the effect recorded in
    [World]. *)
Record RequestContext := {
  sessionCookie : option string;
  request : LuciaRequest
}.

(** *** CSRF configuration *)

Inductive AllowedSubDomains :=
  | Wildcard
  | SubDomains (names : list string).

Record CSRFProtectionConfiguration := {
  host : JS.optional string;
  hostHeader : option string;
  allowedSubDomains : option AllowedSubDomains
}.

(** [{}] *)
Definition empty_configuration : CSRFProtectionConfiguration :=
  {| host := JS.undefined; hostHeader := None; allowedSubDomains := None |}.

(** [boolean | CSRFProtectionConfiguration] *)
Inductive CsrfProtection :=
  | CsrfBoolean (b : bool)
  | CsrfObject (c : CSRFProtectionConfiguration).

Record URL := { url_host : string }.

(** The helpers of ../utils (request.js, url.js), which are not among
    the sources: parameters of everything below. *)
Record Utils := {
  safeParseUrl : string → option URL;
  isAllowedOrigin : string → string → AllowedSubDomains → bool
}.

Definition isValidRequestOrigin (utils : Utils) (request : LuciaRequest)
    (config : CSRFProtectionConfiguration) : bool :=
  match JS.truthy (headers_get (headers request) "Origin") with
  | None => false
  | Some requestOrigin =>
      let host_ : option string :=
        if JS.not_null (host config) then JS.nullish (host config) None
        else
          match url request with
          | Some u => url_host <$> safeParseUrl utils u
          | None =>
              headers_get (headers request) (default "Host" (hostHeader config))
          end in
      match host_ with
      | Some h =>
          isAllowedOrigin utils requestOrigin h
            (default (SubDomains []) (allowedSubDomains config))
      | None => false
      end
  end.

(** *** The [Auth] instance a request is validated against *)

Record Auth (Store Cookie : Type) := {
  validateSession : string → M Store Session;
  getSession : string → M Store Session;
  readSessionCookie : option string → option string;
  readBearerToken : option string → option string;
  createSessionCookie : option Session → Cookie
}.
Arguments validateSession {Store Cookie} _ _ _.
Arguments getSession {Store Cookie} _ _ _.
Arguments readSessionCookie {Store Cookie} _ _.
Arguments readBearerToken {Store Cookie} _ _.
Arguments createSessionCookie {Store Cookie} _ _.

(** *** Promises *)

Inductive Promise (A : Type) :=
  | Resolved (a : A)
  | Rejected (e : Thrown)
  | Pending.
Arguments Resolved {A} a.
Arguments Rejected {A} e.
Arguments Pending {A}.

(** What the caller of an [async] method sees once it awaits it. *)
Inductive Outcome (A : Type) :=
  | Returns (a : A)
  | Throws (e : Thrown)
  | NeverSettles.
Arguments Returns {A} a.
Arguments Throws {A} e.
Arguments NeverSettles {A}.

(** [await p] *)
Definition await {A} (p : Promise A) : Outcome A :=
  match p with
  | Resolved a => Returns a
  | Rejected e => Throws e
  | Pending => NeverSettles
  end.

Section AuthRequest.
Context {Store Cookie : Type}.
Variable auth : Auth Store Cookie.
Variable utils : Utils.

(** Everything outside the [AuthRequest] object that its methods touch:
    the storage behind [auth], and, for the record, the calls made to
    [auth.validateSession] and to [requestContext.setCookie] and the
    rejections nobody handles. *)
Record World := {
  store : Store;
  validateSessionCalls : list string;
  setCookieCalls : list Cookie;
  unhandledRejections : list Thrown
}.

Definition call_validateSession (sid : string) : M World Session :=
  fun w =>
    let '(r, st) := validateSession auth sid (store w) in
    (r, {| store := st;
           validateSessionCalls := validateSessionCalls w ++ [sid];
           setCookieCalls := setCookieCalls w;
           unhandledRejections := unhandledRejections w |}).

Definition call_setCookie (c : Cookie) (w : World) : World :=
  {| store := store w;
     validateSessionCalls := validateSessionCalls w;
     setCookieCalls := setCookieCalls w ++ [c];
     unhandledRejections := unhandledRejections w |}.

(** [new Promise(async (resolve) => { ... })], given how the executor
    ended: with [resolve(a)], or by throwing.  An [async] executor never
    throws into the constructor: its own promise rejects, which nobody
    observes, and the new promise is left pending. *)
Definition new_Promise_async {A} (executor : Result A) (w : World)
  : Promise A * World :=
  match executor with
  | Ok a => (Resolved a, w)
  | Throw e =>
      (Pending,
       {| store := store w;
          validateSessionCalls := validateSessionCalls w;
          setCookieCalls := setCookieCalls w;
          unhandledRejections := unhandledRejections w ++ [e] |})
  end.

(** The private fields of the class. *)
Record AuthRequest := {
  storedSessionId : option string;
  bearerToken : option string;
  validatePromise : option (Promise (option Session));
  validateBearerTokenPromise : option (Promise (option Session))
}.

Definition constructor (requestContext : RequestContext)
    (csrfProtection : CsrfProtection) : AuthRequest :=
  let csrfProtectionConfig :=
    match csrfProtection with
    | CsrfObject c => c
    | CsrfBoolean _ => empty_configuration
    end in
  let csrfProtectionEnabled :=
    match csrfProtection with
    | CsrfBoolean false => false
    | _ => true
    end in
  let rq := request requestContext in
  {| storedSessionId :=
       if negb csrfProtectionEnabled
          || isValidRequestOrigin utils rq csrfProtectionConfig
       then
         match sessionCookie requestContext with
         | Some c => Some c
         | None => readSessionCookie auth (headers_get (headers rq) "Cookie")
         end
       else None;
     bearerToken :=
       readBearerToken auth (headers_get (headers rq) "Authorization");
     validatePromise := None;
     validateBearerTokenPromise := None |}.

Definition setSessionCookie (session : option Session)
    (this : AuthRequest) (w : World) : AuthRequest * World :=
  let sessionId_ := sessionId <$> session in
  if decide (storedSessionId this = sessionId_) then (this, w)
  else
    ({| storedSessionId := sessionId_;
        bearerToken := bearerToken this;
        validatePromise := validatePromise this;
        validateBearerTokenPromise := validateBearerTokenPromise this |},
     call_setCookie (createSessionCookie auth session) w).

Definition setSession (session : option Session)
    (this : AuthRequest) (w : World) : AuthRequest * World :=
  let sessionId_ := sessionId <$> session in
  if decide (storedSessionId this = sessionId_) then (this, w)
  else
    setSessionCookie session
      {| storedSessionId := storedSessionId this;
         bearerToken := bearerToken this;
         validatePromise := None;
         validateBearerTokenPromise := validateBearerTokenPromise this |}
      w.

(** The executor of the promise of [validate]. *)
Definition validate_executor (this : AuthRequest) (w : World)
  : Result (option Session) * AuthRequest * World :=
  match JS.truthy (storedSessionId this) with
  | None => (Ok None, this, w)
  | Some sid =>
      match call_validateSession sid w with
      | (Ok session, w1) =>
          let '(this1, w2) :=
            if fresh session then setSessionCookie (Some session) this w1
            else (this, w1) in
          (Ok (Some session), this1, w2)
      | (Throw e, w1) =>
          if instanceof_LuciaError e then
            let '(this1, w2) := setSessionCookie None this w1 in
            (Ok None, this1, w2)
          else (Throw e, this, w1)
      end
  end.

Definition validate (this : AuthRequest) (w : World)
  : Outcome (option Session) * AuthRequest * World :=
  match validatePromise this with
  | Some p => (await p, this, w)
  | None =>
      let '(r, this1, w1) := validate_executor this w in
      let '(p, w2) := new_Promise_async r w1 in
      (await p,
       {| storedSessionId := storedSessionId this1;
          bearerToken := bearerToken this1;
          validatePromise := Some p;
          validateBearerTokenPromise := validateBearerTokenPromise this1 |},
       w2)
  end.

(** The executor of the promise of [validateBearerToken]. *)
Definition validateBearerToken_executor (this : AuthRequest) (w : World)
  : Result (option Session) * World :=
  match JS.truthy (bearerToken this) with
  | None => (Ok None, w)
  | Some token =>
      match call_validateSession token w with
      | (Ok session, w1) => (Ok (Some session), w1)
      | (Throw e, w1) =>
          if instanceof_LuciaError e then (Ok None, w1) else (Throw e, w1)
      end
  end.

Definition validateBearerToken (this : AuthRequest) (w : World)
  : Outcome (option Session) * AuthRequest * World :=
  match validateBearerTokenPromise this with
  | Some _ =>
      (match validatePromise this with
       | Some p => await p
       | None => Returns None
       end, this, w)
  | None =>
      let '(r, w1) := validateBearerToken_executor this w in
      let '(p, w2) := new_Promise_async r w1 in
      (await p,
       {| storedSessionId := storedSessionId this;
          bearerToken := bearerToken this;
          validatePromise := Some p;
          validateBearerTokenPromise := validateBearerTokenPromise this |},
       w2)
  end.

End AuthRequest.

Arguments World : clear implicits.
Arguments store {Store Cookie} _.
Arguments validateSessionCalls {Store Cookie} _.
Arguments setCookieCalls {Store Cookie} _.
Arguments unhandledRejections {Store Cookie} _.

End Request.

(** ** SessionManager *)

Module SessionManager.
Import Eff.

(** A stored session row. *)
Record DatabaseSession := {
  user_id : string;
  active_expires : Z;
  idle_expires : Z;
  session_attributes : list (string * string)
}.

#[global] Instance DatabaseSession_eq_dec : EqDecision DatabaseSession.
Proof. solve_decision. Defined.

(** The session table by session id, the injected clock, and how many
    identifiers TokenCodec has handed out. *)
Record Store := {
  sessions : gmap string DatabaseSession;
  now : Z;
  generated : nat
}.

Record Configuration := {
  activePeriod : Z;
  idlePeriod : Z;
  generate : nat → string
}.

Section Operations.
Variable config : Configuration.

Definition toSession (id : string) (row : DatabaseSession)
    (st : Expiration.SessionState) (isFresh : bool) : Request.Session :=
  {| Request.sessionId := id;
     Request.userId := user_id row;
     Request.activePeriodExpiresAt := active_expires row;
     Request.idlePeriodExpiresAt := idle_expires row;
     Request.state := st;
     Request.fresh := isFresh;
     Request.attributes := session_attributes row |}.

(** Modelled from the spec: [get] of section 4.3 (the core of the
    library is not among the sources).  Looks the session up and
    computes its state; absent or dead fails with InvalidSessionId; an
    idle session is returned as it is; nothing is written. *)
Definition get (sessionId : string) : M Store Request.Session :=
  fun s =>
    match sessions s !! sessionId with
    | None => (Throw (LuciaError AUTH_INVALID_SESSION_ID), s)
    | Some row =>
        match Expiration.state (now s) (active_expires row) (idle_expires row)
        with
        | Expiration.dead => (Throw (LuciaError AUTH_INVALID_SESSION_ID), s)
        | st => (Ok (toSession sessionId row st false), s)
        end
    end.

(** Modelled from the spec: the renewal step of section 4.3.  The old
    row is deleted and a fresh one, under a newly generated identifier,
    is inserted for the same user with the same attributes, in one
    atomic step; an identifier that is already taken surfaces as
    DuplicateSessionId (section 4.2). *)
Definition renewRow (sessionId : string) (row : DatabaseSession)
  : M Store Request.Session :=
  fun s =>
    let newId := generate config (generated s) in
    let remaining := delete sessionId (sessions s) in
    let newRow :=
      {| user_id := user_id row;
         active_expires := now s + activePeriod config;
         idle_expires := now s + activePeriod config + idlePeriod config;
         session_attributes := session_attributes row |} in
    match remaining !! newId with
    | Some _ =>
        (Throw (LuciaError AUTH_DUPLICATE_SESSION_ID),
         {| sessions := sessions s; now := now s;
            generated := S (generated s) |})
    | None =>
        (Ok (toSession newId newRow Expiration.active true),
         {| sessions := <[newId := newRow]> remaining; now := now s;
            generated := S (generated s) |})
    end.

(** Modelled from the spec: [validateAndRenew] of section 4.3, which is
    what [Auth.validateSession] does.  An active session is returned as
    it is; an idle one is renewed; absent or dead fails with
    InvalidSessionId and writes nothing. *)
Definition validateAndRenew (sessionId : string) : M Store Request.Session :=
  fun s =>
    match sessions s !! sessionId with
    | None => (Throw (LuciaError AUTH_INVALID_SESSION_ID), s)
    | Some row =>
        match Expiration.state (now s) (active_expires row) (idle_expires row)
        with
        | Expiration.active =>
            (Ok (toSession sessionId row Expiration.active false), s)
        | Expiration.idle => renewRow sessionId row s
        | Expiration.dead => (Throw (LuciaError AUTH_INVALID_SESSION_ID), s)
        end
    end.

(** Modelled from the spec: the cookie of section 4.7, reduced to its
    value: the session id, or the empty value of the clearing cookie. *)
Definition createSessionCookie (session : option Request.Session) : string :=
  match session with
  | Some s => Request.sessionId s
  | None => EmptyString
  end.

(** Modelled from the spec: the bearer transport of section 6,
    [Authorization: Bearer <sessionId>]. *)
Definition readBearerToken (authorizationHeader : option string)
  : option string :=
  match authorizationHeader with
  | Some h =>
      if String.prefix "Bearer " h
      then Some (String.substring 7 (String.length h - 7) h)
      else None
  | None => None
  end.

(** The [Auth] instance over this session manager; the cookie parser is
    left to the caller. *)
Definition auth (readSessionCookie : option string → option string)
  : Request.Auth Store string :=
  {| Request.validateSession := validateAndRenew;
     Request.getSession := get;
     Request.readSessionCookie := readSessionCookie;
     Request.readBearerToken := readBearerToken;
     Request.createSessionCookie := createSessionCookie |}.

End Operations.

End SessionManager.

(** ** Concrete inputs *)

Module Examples.
Import Eff Query.

(** A user [u0] with one primary key. *)
Definition ann : Db.Row :=
  [("id", CString "u0"); ("username", CString "ann")].

Definition ann_key : Db.Row :=
  [("id", CString "email:ann@example.com"); ("user_id", CString "u0");
   ("primary_key", CBoolean true); ("hashed_password", CNull)].

Definition ann_github : Db.Row :=
  [("id", CString "github:1"); ("user_id", CString "u0");
   ("primary_key", CBoolean false); ("hashed_password", CNull)].

Definition tables : Db.Tables :=
  {[ Db.user_table := [ann]; Db.key_table := [ann_key; ann_github] ]}.

Definition server : Mysql2.Server :=
  {| Mysql2.committed := tables; Mysql2.connections := [] |}.

(** A registration of [u1] that claims the key id [u0] already has. *)
Definition bob_attributes : Values := [("username", CString "bob")].

Definition bob : Db.Row :=
  [("id", CString "u1"); ("username", CString "bob")].

Definition bob_key : Db.Row :=
  [("id", CString "email:ann@example.com"); ("user_id", CString "u1");
   ("primary_key", CBoolean true); ("hashed_password", CNull)].

Definition tables_with_bob : Db.Tables :=
  <[ Db.user_table := [ann; bob] ]> tables.

(** A session for a user that does not exist. *)
Definition orphan_session : Db.Row :=
  [("id", CString "s-orphan"); ("user_id", CString "nobody");
   ("active_expires", CBigint 1000); ("idle_expires", CBigint 2000)].

(** Blocks as the adapters write them. *)
Definition update_password : list Block :=
  [UPDATE "auth_key" [("hashed_password", CString "s2:hash")];
   AND [ {| column := "id"; comparator := "=";
            value := CString "email:ann@example.com" |};
         {| column := "user_id"; comparator := "=";
            value := CString "u0" |} ]].

(** An [Auth] whose session validation fails with [e], whatever the
    session id. *)
Definition failing_auth (e : Thrown) : Request.Auth unit string :=
  {| Request.validateSession := fun _ => throw e;
     Request.getSession := fun _ => throw e;
     Request.readSessionCookie := fun cookieHeader => cookieHeader;
     Request.readBearerToken := SessionManager.readBearerToken;
     Request.createSessionCookie := SessionManager.createSessionCookie |}.

Definition empty_world : Request.World unit string :=
  {| Request.store := tt; Request.validateSessionCalls := [];
     Request.setCookieCalls := []; Request.unhandledRejections := [] |}.

(** A request object that resolved the session cookie [s1]. *)
Definition with_cookie : Request.AuthRequest :=
  {| Request.storedSessionId := Some "s1"; Request.bearerToken := None;
     Request.validatePromise := None;
     Request.validateBearerTokenPromise := None |}.

(** One hour active, one hour idle; the session [s1] of [u0], created at
    time 0, seen ninety minutes later. *)
Definition hour : Z := 3600000.

Definition configuration : SessionManager.Configuration :=
  {| SessionManager.activePeriod := hour;
     SessionManager.idlePeriod := hour;
     SessionManager.generate := fun n => "renewed-" +:+ pretty n |}.

Definition s1_row : SessionManager.DatabaseSession :=
  {| SessionManager.user_id := "u0";
     SessionManager.active_expires := hour;
     SessionManager.idle_expires := 2 * hour;
     SessionManager.session_attributes := [("country", "nz")] |}.

Definition idle_store : SessionManager.Store :=
  {| SessionManager.sessions := {[ "s1" := s1_row ]};
     SessionManager.now := 5400000;
     SessionManager.generated := 0 |}.

Definition idle_world : Request.World SessionManager.Store string :=
  {| Request.store := idle_store; Request.validateSessionCalls := [];
     Request.setCookieCalls := []; Request.unhandledRejections := [] |}.

(** A cross-origin-safe API request: no cookie, no Origin, the session
    id as a bearer token. *)
Definition bearer_request : Request.RequestContext :=
  {| Request.sessionCookie := None;
     Request.request :=
       {| Request.method := "GET";
          Request.url := Some "https://example.com/api/me";
          Request.headers := [("authorization", "Bearer s1")] |} |}.

(** A request that carries the session cookie and no Origin header. *)
Definition no_origin_request : Request.RequestContext :=
  {| Request.sessionCookie := Some "s1";
     Request.request :=
       {| Request.method := "POST";
          Request.url := Some "https://example.com/logout";
          Request.headers :=
            [("Host", "example.com"); ("Cookie", "auth_session=s1")] |} |}.

(** The session manager as the [Auth] of a request; the cookie header
    is taken to hold the bare session id. *)
Definition session_auth : Request.Auth SessionManager.Store string :=
  SessionManager.auth configuration (fun cookieHeader => cookieHeader).

(** A same-origin request of a browser, with its Origin header. *)
Definition same_origin_request : Request.LuciaRequest :=
  {| Request.method := "POST";
     Request.url := Some "https://example.com/logout";
     Request.headers :=
       [("Origin", "https://example.com"); ("Host", "example.com");
        ("Cookie", "auth_session=s1")] |}.

(** Helpers as lenient as can be: every URL parses to the host
    [example.com] and every origin is allowed. *)
Definition lenient_utils : Request.Utils :=
  {| Request.safeParseUrl := fun _ => Some {| Request.url_host := "example.com" |};
     Request.isAllowedOrigin := fun _ _ _ => true |}.

End Examples.

(** ** More concrete inputs *)

Module MoreExamples.
Import Eff Query.

(** The blocks of [Examples.update_password] with other values. *)
Definition update_password_other : list Block :=
  [UPDATE "auth_key" [("hashed_password", CNull)];
   AND [ {| column := "id"; comparator := "=";
            value := CString "github:1" |};
         {| column := "user_id"; comparator := "=";
            value := CString "u7" |} ]].

(** A key of its own for the registration of [u1]. *)
Definition bob_own_key : Db.Row :=
  [("id", CString "email:bob@example.com"); ("user_id", CString "u1");
   ("primary_key", CBoolean true); ("hashed_password", CString "s2:bob")].

Definition tables_with_bob_and_key : Db.Tables :=
  <[ Db.key_table := [Examples.ann_key; Examples.ann_github; bob_own_key] ]>
    Examples.tables_with_bob.

(** A key for a user that does not exist. *)
Definition orphan_key : Db.Row :=
  [("id", CString "email:nobody@example.com"); ("user_id", CString "nobody");
   ("primary_key", CBoolean true); ("hashed_password", CNull)].

(** Two sessions of [u0], stored. *)
Definition session_a : Db.Row :=
  [("id", CString "sa"); ("user_id", CString "u0");
   ("active_expires", CBigint 1000); ("idle_expires", CBigint 2000)].

Definition session_b : Db.Row :=
  [("id", CString "sb"); ("user_id", CString "u0");
   ("active_expires", CBigint 3000); ("idle_expires", CBigint 4000)].

Definition tables_with_sessions : Db.Tables :=
  <[ Db.session_table := [session_a; session_b] ]> Examples.tables.

Definition server_with_sessions : Mysql2.Server :=
  {| Mysql2.committed := tables_with_sessions; Mysql2.connections := [] |}.

(** A session of [u0] that is not stored yet. *)
Definition session_c : Db.Row :=
  [("id", CString "sc"); ("user_id", CString "u0");
   ("active_expires", CBigint 5000); ("idle_expires", CBigint 6000)].

(** The error of a database that cannot be reached. *)
Definition refused : Thrown :=
  DriverError {| code := Some "ECONNREFUSED"; errno := Some (-111)%Z;
                 message := Some "connect ECONNREFUSED 127.0.0.1:3306" |}.

(** A configuration whose host is [null]. *)
Definition null_host : Request.CSRFProtectionConfiguration :=
  {| Request.host := JS.null; Request.hostHeader := None;
     Request.allowedSubDomains := None |}.

Definition same_origin_context : Request.RequestContext :=
  {| Request.sessionCookie := Some EmptyString;
     Request.request := Examples.same_origin_request |}.

(** A session as [auth.validateSession] returns it after a renewal. *)
Definition renewed : Request.Session :=
  {| Request.sessionId := "s2"; Request.userId := "u0";
     Request.activePeriodExpiresAt := 9000000;
     Request.idlePeriodExpiresAt := 12600000;
     Request.state := Expiration.active; Request.fresh := true;
     Request.attributes := [] |}.

(** An [Auth] whose session validation answers every id with
    [renewed]. *)
Definition renewing_auth : Request.Auth unit string :=
  {| Request.validateSession := fun _ => ret renewed;
     Request.getSession := fun _ => ret renewed;
     Request.readSessionCookie := fun cookieHeader => cookieHeader;
     Request.readBearerToken := SessionManager.readBearerToken;
     Request.createSessionCookie := SessionManager.createSessionCookie |}.

(** The tables of the Knex adapter, with a session whose user is gone. *)
Definition knex_names : Knex.TableNames :=
  {| Knex.users := "users"; Knex.sessions := "sessions" |}.

Definition knex_tables : Db.Tables :=
  {[ "users" := [[("userId", CString "u0"); ("username", CString "ann")]];
     "sessions" :=
       [[("sessionId", CString "sa"); ("userId", CString "u0");
         ("activeExpires", CBigint 1000)];
        [("sessionId", CString "sx"); ("userId", CString "gone");
         ("activeExpires", CBigint 2000)]] ]}.

Definition knex_database : Knex.Database :=
  {| Knex.relations := knex_tables; Knex.unreachable := None |}.

Definition connection_refused : QueryError :=
  {| code := Some "ECONNREFUSED"; errno := Some (-111)%Z;
     message := Some "connect ECONNREFUSED 127.0.0.1:5432" |}.

Definition knex_unreachable : Knex.Database :=
  {| Knex.relations := knex_tables;
     Knex.unreachable := Some connection_refused |}.

(** A database whose user table was never created. *)
Definition knex_without_users : Knex.Database :=
  {| Knex.relations := delete "users" knex_tables;
     Knex.unreachable := None |}.

(** A rendering of rows as JSON: the columns keep their names, and an
    integer of any width comes back as a number. *)
Definition to_json (row : Values) : Values :=
  (fun kv : string * ColumnValue =>
     (kv.1, match kv.2 with CBigint z => CNumber z | v => v end)) <$> row.

(** A runner that answers every query with the same rows. *)
Definition constant_runner (rows : list Values) : Operator.Runner unit :=
  {| Operator.runner_get := fun _ _ => ret (Operator.RRows rows);
     Operator.runner_run := fun _ _ => ret tt |}.

End MoreExamples.

(** * Properties *)

(** ** Query blocks: placeholders and parameters *)

Section QueryFacts.
Import Query.

(** The pieces of a chunk render to the text of its template literal,
    and joining chunks in pieces is joining their texts. *)
Lemma append_assoc (a b c : string) : (a +:+ b) +:+ c = a +:+ b +:+ c.
Proof.
  induction a as [|x a IH]; [done|].
  change (String x ((a +:+ b) +:+ c) = String x (a +:+ b +:+ c)).
  by rewrite IH.
Qed.

Lemma append_empty_r (a : string) : a +:+ EmptyString = a.
Proof.
  induction a as [|x a IH]; [done|].
  change (String x (a +:+ EmptyString) = String x a). by rewrite IH.
Qed.

Lemma render_app (a b : list Piece) : render (a ++ b) = render a +:+ render b.
Proof.
  induction a as [|p a IH]; [done|].
  change (render ((p :: a) ++ b)) with (render_piece p +:+ render (a ++ b)).
  change (render (p :: a)) with (render_piece p +:+ render a).
  by rewrite IH, append_assoc.
Qed.

Lemma render_join (sep : string) (xs : list (list Piece)) :
  render (join [Lit sep] xs) = String.concat sep (render <$> xs).
Proof.
  induction xs as [|x [|y rest] IH]; [done|done|].
  change (join [Lit sep] (x :: y :: rest))
    with (x ++ [Lit sep] ++ join [Lit sep] (y :: rest)).
  rewrite !render_app, IH.
  change (render [Lit sep]) with (sep +:+ EmptyString).
  rewrite append_empty_r, !fmap_cons. reflexivity.
Qed.

Lemma statementText_join (blocks : list Block) :
  statementText (resolveQueryBlocks blocks)
  = String.concat " " (render <$> (resolveLoop blocks [] []).1).
Proof.
  unfold statementText, resolveQueryBlocks.
  destruct (resolveLoop blocks [] []) as [queryChunks ps]. apply render_join.
Qed.

Lemma placeholders_app (a b : list Piece) :
  placeholders (a ++ b) = placeholders a ++ placeholders b.
Proof. unfold placeholders. apply omap_app. Qed.

Lemma placeholders_join (sep : list Piece) (xs : list (list Piece)) :
  placeholders sep = [] →
  placeholders (join sep xs) = mjoin (placeholders <$> xs).
Proof.
  intros Hsep. induction xs as [|x [|y rest] IH].
  - reflexivity.
  - simpl. by rewrite app_nil_r.
  - change (join sep (x :: y :: rest)) with (x ++ sep ++ join sep (y :: rest)).
    rewrite !placeholders_app, Hsep, IH. reflexivity.
Qed.

Lemma join_Forall2 {A B} (R : A → B → Prop) sep sep' xs ys :
  Forall2 R sep sep' →
  Forall2 (Forall2 R) xs ys →
  Forall2 R (join sep xs) (join sep' ys).
Proof.
  intros Hsep Hxs. induction Hxs as [|x y xs ys Hxy Hrest IH].
  - constructor.
  - destruct Hrest as [|x' y' xs' ys' Hxy' Hrest'].
    + exact Hxy.
    + simpl in *. apply Forall2_app; [exact Hxy|].
      apply Forall2_app; [exact Hsep|]. exact IH.
Qed.

Lemma mjoin_singletons {A B} (f : A → B) (l : list A) :
  mjoin ((fun x => [f x]) <$> l) = f <$> l.
Proof. induction l as [|x l IH]; csimpl; [done|]. by f_equal. Qed.

Lemma seq_shift_from (c n : nat) :
  (fun i => c + i + 1) <$> seq 0 n = seq (S c) n.
Proof.
  replace (S c) with (S c + 0) by lia. rewrite <- fmap_add_seq.
  apply list_fmap_ext. intros _ i _. lia.
Qed.

(** Reading every property of an object in key order gives its values. *)
Lemma get_keys (values : Values) :
  NoDup values.*1 → get values <$> Object_keys values = values.*2.
Proof.
  unfold Object_keys. induction values as [|[k v] rest IH]; intros Hnd.
  - reflexivity.
  - rewrite fmap_cons in Hnd. apply NoDup_cons in Hnd as [Hk Hrest].
    rewrite !fmap_cons. f_equal.
    + unfold get. simpl. by rewrite decide_True.
    + rewrite <- (IH Hrest). apply list_fmap_ext.
      intros i k' Hin. unfold get. simpl.
      rewrite decide_False; [done|].
      intros ->. apply Hk. by eapply list_elem_of_lookup_2.
Qed.

Lemma foldl_params (l : list ResolvedBlock) (acc : list ColumnValue) :
  foldl (fun acc curr => acc ++ params curr) acc l
  = acc ++ mjoin (params <$> l).
Proof.
  revert acc. induction l as [|r l IH]; intros acc; simpl.
  - by rewrite app_nil_r.
  - rewrite IH. by rewrite <- app_assoc.
Qed.


Lemma bind_piece_Ph pre vals post i v :
  vals !! i = Some v →
  bind_piece (pre ++ vals ++ post) (Ph (length pre + i + 1)) = Some (BValue v).
Proof.
  intros Hv. replace (length pre + i + 1) with (S (length pre + i)) by lia.
  simpl. rewrite lookup_app_r by lia.
  replace (length pre + i - length pre) with i by lia.
  by rewrite (lookup_app_l_Some _ _ _ _ Hv).
Qed.

Lemma placeholders_numbered (c n : nat) :
  mjoin (placeholders <$> ((fun i => [Ph (c + i + 1)]) <$> seq 0 n))
  = seq (S c) n.
Proof.
  rewrite <- list_fmap_compose.
  rewrite <- seq_shift_from.
  rewrite <- (mjoin_singletons (fun i => c + i + 1)).
  reflexivity.
Qed.

Lemma placeholders_imap {A} (f : nat → A → list Piece) (l : list A) (c : nat) :
  (∀ i x, placeholders (f i x) = [S (c + i)]) →
  mjoin (placeholders <$> imap f l) = seq (S c) (length l).
Proof.
  revert f c. induction l as [|x l IH]; intros f c Hf.
  - reflexivity.
  - rewrite imap_cons, fmap_cons. simpl. rewrite Hf. simpl.
    rewrite Nat.add_0_r. f_equal.
    apply IH. intros i y. unfold compose. rewrite Hf. f_equal. lia.
Qed.

Lemma resolveQueryBlock_placeholders block c :
  placeholders (queryChunk (resolveQueryBlock block c))
  = seq (S c) (length (params (resolveQueryBlock block c))).
Proof.
  destruct block as [tt tc col|t cols|cols|t values|w|ws|t|t values];
    simpl; try done.
  - rewrite placeholders_app, placeholders_join by done.
    rewrite placeholders_numbered. simpl. rewrite app_nil_r.
    by rewrite length_fmap.
  - by rewrite Nat.add_1_r.
  - rewrite foldl_params, !fmap_imap. unfold compose. simpl.
    change (imap (fun (_ : nat) (x : WhereBlock) => [value x]) ws)
      with (imap (const (fun x : WhereBlock => [value x])) ws).
    rewrite imap_const, mjoin_singletons.
    rewrite placeholders_join by done.
    rewrite length_fmap. apply placeholders_imap.
    intros i x. simpl. f_equal. lia.
  - rewrite placeholders_join by done. rewrite length_fmap.
    apply placeholders_imap. intros i x. simpl. f_equal. lia.
Qed.

Lemma resolveQueryBlock_binds block pre post :
  wf_block block →
  Forall2
    (fun p b =>
       bind_piece
         (pre ++ params (resolveQueryBlock block (length pre)) ++ post) p
       = Some b)
    (queryChunk (resolveQueryBlock block (length pre))) (inline_block block).
Proof.
  intros Hwf. destruct block as
    [tt tc col|t cols|cols|t values|w|ws|t|t values]; simpl;
    try (by repeat constructor).
  - (* INSERT_INTO *)
    simpl in Hwf. rewrite (get_keys _ Hwf).
    constructor; [done|].
    apply Forall2_app; [|by repeat constructor].
    apply join_Forall2; [by repeat constructor|].
    apply Forall2_fmap. apply Forall2_same_length_lookup_2.
    { unfold Object_keys. by rewrite length_seq, length_fmap. }
    intros i j [k v] Hi Hkv. apply lookup_seq in Hi as [-> _].
    repeat constructor. simpl. apply bind_piece_Ph.
    by rewrite list_lookup_fmap, Hkv.
  - (* WHERE *)
    repeat constructor.
    rewrite Nat.add_1_r. simpl. by rewrite list_lookup_middle.
  - (* AND *)
    rewrite foldl_params, !fmap_imap. unfold compose. simpl.
    change (imap (fun (_ : nat) (x : WhereBlock) => [value x]) ws)
      with (imap (const (fun x : WhereBlock => [value x])) ws).
    rewrite imap_const, mjoin_singletons.
    constructor; [done|].
    apply join_Forall2; [by repeat constructor|].
    apply Forall2_fmap_r. apply Forall2_same_length_lookup_2.
    { by rewrite length_imap. }
    intros i p w Hp Hw. rewrite list_lookup_imap, Hw in Hp.
    injection Hp as <-. repeat constructor.
    replace (length pre + 1 + i) with (length pre + i + 1) by lia.
    apply bind_piece_Ph. by rewrite list_lookup_fmap, Hw.
  - (* UPDATE *)
    simpl in Hwf. rewrite (get_keys _ Hwf).
    constructor; [done|].
    apply join_Forall2; [by repeat constructor|].
    apply Forall2_fmap_r. apply Forall2_same_length_lookup_2.
    { unfold Object_keys. by rewrite length_imap, length_fmap. }
    intros i p [k v] Hp Hkv. unfold Object_keys in Hp.
    rewrite list_lookup_imap, list_lookup_fmap, Hkv in Hp.
    injection Hp as <-. repeat constructor. simpl.
    apply bind_piece_Ph. by rewrite list_lookup_fmap, Hkv.
Qed.

(** The loop appends, block after block, chunks whose placeholders
    continue the numbering where the parameters collected so far end. *)
Lemma resolveLoop_ok blocks chunks ps :
  ∃ cs vs,
    resolveLoop blocks chunks ps = (chunks ++ cs, ps ++ vs)
    ∧ mjoin (placeholders <$> cs) = seq (S (length ps)) (length vs)
    ∧ (Forall wf_block blocks →
       ∀ post,
         Forall2
           (Forall2 (fun p b => bind_piece (ps ++ vs ++ post) p = Some b))
           cs (inline_block <$> blocks)).
Proof.
  revert chunks ps. induction blocks as [|b rest IH]; intros chunks ps.
  - exists [], []. rewrite !app_nil_r. split; [done|]. split; [done|].
    intros _ post. constructor.
  - simpl.
    destruct (IH (chunks ++ [queryChunk (resolveQueryBlock b (length ps))])
                 (ps ++ params (resolveQueryBlock b (length ps))))
      as (cs & vs & Hloop & Hph & Hbind).
    exists (queryChunk (resolveQueryBlock b (length ps)) :: cs),
           (params (resolveQueryBlock b (length ps)) ++ vs).
    split; [|split].
    + rewrite Hloop. f_equal; by rewrite <- app_assoc.
    + rewrite fmap_cons. simpl. rewrite Hph, resolveQueryBlock_placeholders.
      rewrite !length_app. rewrite seq_app. repeat f_equal; lia.
    + intros Hwf post. apply Forall_cons in Hwf as [Hb Hrest].
      constructor.
      * rewrite <- app_assoc. by apply resolveQueryBlock_binds.
      * specialize (Hbind Hrest post).
        by rewrite <- !app_assoc in Hbind |- *.
Qed.

(** C10: the placeholders of the resolved statement are [$1 .. $N] from
    left to right, [N] being the number of parameters returned; and,
    the values of each object block being those of distinct property
    names, putting the [k]-th parameter in place of [$k] yields the
    statement with every value where its own column or condition
    stands, for every block type. *)
Theorem resolveQueryBlocks_placeholders_in_order (blocks : list Block) :
  placeholders (statement (resolveQueryBlocks blocks))
  = seq 1 (length (qparams (resolveQueryBlocks blocks)))
  ∧ (Forall wf_block blocks →
     bind_params (qparams (resolveQueryBlocks blocks))
          (statement (resolveQueryBlocks blocks))
     = Some (inline blocks)).
Proof.
  unfold resolveQueryBlocks.
  destruct (resolveLoop_ok blocks [] []) as (cs & vs & -> & Hph & Hbind).
  simpl. split.
  - rewrite placeholders_join by done. exact Hph.
  - intros Hwf. unfold bind_params. apply mapM_Some.
    apply join_Forall2; [by repeat constructor|].
    specialize (Hbind Hwf []). by rewrite app_nil_r in Hbind.
Qed.

End QueryFacts.

(** ** ExpirationPolicy *)

(** C6: for [a < i] the state is active exactly when [now < a], idle
    exactly when [a <= now < i] and dead exactly when [i <= now]; at
    [now = a] it is idle and at [now = i] it is dead. *)
Theorem state_active_idle_dead (now a i : Z) :
  (a < i)%Z →
  (Expiration.state now a i = Expiration.active ↔ (now < a)%Z)
  ∧ (Expiration.state now a i = Expiration.idle ↔ (a ≤ now < i)%Z)
  ∧ (Expiration.state now a i = Expiration.dead ↔ (i ≤ now)%Z)
  ∧ Expiration.state a a i = Expiration.idle
  ∧ Expiration.state i a i = Expiration.dead.
Proof.
  intros Hai. unfold Expiration.state.
  repeat split; intros; repeat case_match;
    try discriminate; try reflexivity;
    rewrite ?Z.ltb_lt, ?Z.ltb_ge in *; lia.
Qed.

Lemma state_active_idle_dead_witness :
  (10 < 20)%Z
  ∧ Expiration.state 10 10 20 = Expiration.idle
  ∧ Expiration.state 20 10 20 = Expiration.dead.
Proof.
  split; [lia|].
  apply (state_active_idle_dead 15 10 20). lia.
Defined.

(** ** Adapters *)

Section AdapterFacts.
Import Eff Query.

(** *** Text search *)

Lemma substring_append_skip (a s : string) (m n : nat) :
  String.substring (String.length a + m) n (a +:+ s) = String.substring m n s.
Proof. induction a as [|c a IH]; simpl; [done | exact IH]. Qed.

(** What a text includes, it still includes behind any prefix. *)
Lemma includes_prefix (a s needle : string) :
  JS.includes s needle = true → JS.includes (a +:+ s) needle = true.
Proof.
  unfold JS.includes. destruct needle as [|c needle]; [done|].
  rewrite !bool_decide_eq_true. intros [m Hm].
  apply String.index_correct1 in Hm.
  destruct (String.index 0 (String c needle) (a +:+ s)) as [m'|] eqn:Hidx;
    [by eexists|].
  exfalso.
  eapply (String.index_correct3 0 (String.length a + m)) in Hidx; [|done|lia].
  apply Hidx. by rewrite substring_append_skip.
Qed.

(** *** deleteNonPrimaryKey *)

Lemma rows_insert_eq (t : Db.Tables) table rs :
  Db.rows (<[table := rs]> t) table = rs.
Proof. unfold Db.rows. by rewrite lookup_insert_eq. Qed.

Lemma rows_insert_ne (t : Db.Tables) table table' rs :
  table ≠ table' → Db.rows (<[table := rs]> t) table' = Db.rows t table'.
Proof. intros Hne. unfold Db.rows. by rewrite lookup_insert_ne. Qed.

Lemma matches_non_primary (keyId : string) (r : Db.Row) :
  Db.matches [("id", CString keyId); ("primary_key", CBoolean false)] r = true
  ↔ prop r "id" = Some (CString keyId)
    ∧ prop r "primary_key" = Some (CBoolean false).
Proof.
  unfold Db.matches, Db.has. simpl.
  rewrite !andb_true_iff, !bool_decide_eq_true. tauto.
Qed.

(** C9: unlinking through [deleteNonPrimaryKey] leaves every key row
    whose [primary_key] is true in storage, whatever key id is given;
    a key row it removes carries that id and has [primary_key] false;
    it adds no row and touches no other table. *)
Theorem deleteNonPrimaryKey_preserves_primary_keys
    (keyId : string) (t : Db.Tables) :
  (Prisma.deleteNonPrimaryKey keyId t).1 = Ok tt
  ∧ (∀ r, r ∈ Db.rows t Db.key_table →
          prop r "primary_key" = Some (CBoolean true) →
          r ∈ Db.rows (Prisma.deleteNonPrimaryKey keyId t).2 Db.key_table)
  ∧ (∀ r, r ∈ Db.rows t Db.key_table →
          r ∉ Db.rows (Prisma.deleteNonPrimaryKey keyId t).2 Db.key_table →
          prop r "id" = Some (CString keyId)
          ∧ prop r "primary_key" = Some (CBoolean false))
  ∧ (∀ r, r ∈ Db.rows (Prisma.deleteNonPrimaryKey keyId t).2 Db.key_table →
          r ∈ Db.rows t Db.key_table)
  ∧ (∀ table, table ≠ Db.key_table →
       Db.rows (Prisma.deleteNonPrimaryKey keyId t).2 table = Db.rows t table).
Proof.
  unfold Prisma.deleteNonPrimaryKey, Prisma.deleteMany, modify,
    Db.delete_where. simpl.
  split; [done|]. rewrite rows_insert_eq.
  split; [|split; [|split]].
  - intros r Hin Hprimary. apply list_elem_of_filter. split; [|done].
    apply not_true_is_false. intros Hm.
    apply matches_non_primary in Hm as [_ Hnp]. congruence.
  - intros r Hin Hout.
    apply matches_non_primary. apply not_false_is_true. intros Hm.
    apply Hout. by apply list_elem_of_filter.
  - intros r Hin. by apply list_elem_of_filter in Hin as [_ Hin].
  - intros table Hne. by apply rows_insert_ne.
Qed.

End AdapterFacts.

Section Mysql2Facts.
Import Eff Query.

(** *** setUser with a key *)

(** In the model, a transaction is a real one: statements run on the
    connection that began it do not reach the committed tables before
    [commit], so rolling back loses them. *)
Lemma connection_query_private (c : nat) (blocks : list Block)
    (s : Mysql2.Server) (conn : Mysql2.Connection) :
  Mysql2.connections s !! c = Some conn →
  Mysql2.inTransaction conn = true →
  Mysql2.committed (Mysql2.connection_query c blocks s).2
  = Mysql2.committed s.
Proof.
  intros Hc Htx. unfold Mysql2.connection_query. rewrite Hc, Htx.
  by destruct (Mysql2.replay _ _).
Qed.

(** The Prisma adapter is atomic: when [setUser] with a key throws, the
    tables are as they were. *)
Lemma prisma_setUser_atomic userId attributes key (t : Db.Tables) e t' :
  Prisma.setUser userId attributes (Some key) t = (Throw e, t') → t' = t.
Proof.
  unfold Prisma.setUser, try_catch, bind, Prisma.transaction, ret, throw.
  simpl. repeat case_match; congruence.
Qed.

(** C7, on the mysql2 adapter: when the user row can be inserted and the
    key row cannot, [setUser] throws and the user row is committed all
    the same; the transaction it opened holds no statement, since the
    operator sends both inserts to the pool. *)
Theorem mysql2_setUser_keeps_user_when_key_fails
    (userId : string) (attributes key : Values) (s : Mysql2.Server)
    (t1 : Db.Tables) (v : Db.Violation) :
  Db.insert Db.user_table (Db.spread [("id", CString userId)] attributes)
            (Mysql2.committed s) = inr t1 →
  Db.insert Db.key_table key t1 = inl v →
  Mysql2.setUser userId attributes (Some key) s
  = (Throw (if Mysql2.is_duplicate_primary (DriverError (Mysql2.queryError v))
            then LuciaError AUTH_DUPLICATE_KEY_ID
            else DriverError (Mysql2.queryError v)),
     {| Mysql2.committed := t1;
        Mysql2.connections :=
          <[length (Mysql2.connections s) := Mysql2.fresh_connection]>
            (<[length (Mysql2.connections s) :=
                 {| Mysql2.inTransaction := true; Mysql2.pending := [] |}]>
               (Mysql2.connections s ++ [Mysql2.fresh_connection])) |}).
Proof.
  intros Huser Hkey.
  unfold Mysql2.setUser, Mysql2.transaction, Mysql2.operator_run,
    Mysql2.runner_run, Mysql2.pool_query, Mysql2.getConnection,
    Mysql2.beginTransaction, Mysql2.rollback, Mysql2.set_connection,
    try_catch, bind, modify, throw, ret.
  simpl. rewrite Huser. simpl. rewrite Hkey.
  by destruct (Mysql2.is_duplicate_primary _).
Qed.

End Mysql2Facts.

Lemma mysql2_setUser_keeps_user_when_key_fails_witness :
  Db.insert Db.user_table
    (Db.spread [("id", Query.CString "u1")] Examples.bob_attributes)
    (Mysql2.committed Examples.server) = inr Examples.tables_with_bob
  ∧ Db.insert Db.key_table Examples.bob_key Examples.tables_with_bob
    = inl (Db.DuplicatePrimary Db.key_table
             (Query.CString "email:ann@example.com"))
  ∧ (Mysql2.setUser "u1" Examples.bob_attributes (Some Examples.bob_key)
       Examples.server).1
    = Eff.Throw (Eff.LuciaError Eff.AUTH_DUPLICATE_KEY_ID)
  ∧ Db.rows
      (Mysql2.committed
         (Mysql2.setUser "u1" Examples.bob_attributes (Some Examples.bob_key)
            Examples.server).2)
      Db.user_table
    = [Examples.ann; Examples.bob]
  ∧ Db.rows
      (Mysql2.committed
         (Mysql2.setUser "u1" Examples.bob_attributes (Some Examples.bob_key)
            Examples.server).2)
      Db.key_table
    = [Examples.ann_key; Examples.ann_github].
Proof.
  assert (Huser :
    Db.insert Db.user_table
      (Db.spread [("id", Query.CString "u1")] Examples.bob_attributes)
      (Mysql2.committed Examples.server) = inr Examples.tables_with_bob)
    by (vm_compute; reflexivity).
  assert (Hkey :
    Db.insert Db.key_table Examples.bob_key Examples.tables_with_bob
    = inl (Db.DuplicatePrimary Db.key_table
             (Query.CString "email:ann@example.com")))
    by (vm_compute; reflexivity).
  split; [exact Huser|]. split; [exact Hkey|].
  rewrite (mysql2_setUser_keeps_user_when_key_fails
             "u1" Examples.bob_attributes Examples.bob_key Examples.server
             _ _ Huser Hkey).
  repeat split; vm_compute; reflexivity.
Defined.

Section SetSessionFacts.
Import Eff Query.

(** The errors of the MySQL server carry the signatures the adapter
    looks for. *)
Lemma mysql_foreign_key_signature table v :
  Mysql2.is_foreign_key_user_id
    (DriverError (Mysql2.queryError (Db.MissingReference table "user_id" v)))
  = true.
Proof.
  unfold Mysql2.is_foreign_key_user_id. apply andb_true_iff.
  split; [done|].
  unfold message_includes.
  cbn [error_message Mysql2.queryError message].
  do 5 apply includes_prefix. by vm_compute.
Qed.

Lemma mysql_duplicate_signature table id :
  Mysql2.is_foreign_key_user_id
    (DriverError (Mysql2.queryError (Db.DuplicatePrimary table id))) = false
  ∧ Mysql2.is_duplicate_primary
      (DriverError (Mysql2.queryError (Db.DuplicatePrimary table id))) = true.
Proof.
  split; [done|].
  unfold Mysql2.is_duplicate_primary. apply andb_true_iff.
  split; [done|].
  unfold message_includes.
  cbn [error_message Mysql2.queryError message].
  do 4 apply includes_prefix. by vm_compute.
Qed.

Lemma prisma_signatures table col v id :
  Prisma.is_foreign_key
    (DriverError (Prisma.prismaError (Db.MissingReference table col v))) = true
  ∧ Prisma.is_foreign_key
      (DriverError (Prisma.prismaError (Db.DuplicatePrimary table id))) = false
  ∧ Prisma.is_unique_id
      (DriverError (Prisma.prismaError (Db.DuplicatePrimary table id))) = true.
Proof. by vm_compute. Qed.

(** The tests of the adapters are the documented signatures. *)
Lemma message_includes_has (e : Thrown) (text : string) :
  message_includes e text = true ↔ Signature.message_has e text.
Proof.
  unfold message_includes, Signature.message_has.
  destruct (error_message e) as [m|]; split.
  - intros Hm. by exists m.
  - intros (m' & Hm' & Hinc). by injection Hm' as ->.
  - discriminate.
  - by intros (m' & Hm' & _).
Qed.

Lemma mysql_foreign_key_test (e : Thrown) :
  Mysql2.is_foreign_key_user_id e = true
  ↔ Signature.mysql_foreign_key_on_user_id e.
Proof.
  unfold Mysql2.is_foreign_key_user_id, Signature.mysql_foreign_key_on_user_id.
  by rewrite andb_true_iff, bool_decide_eq_true, message_includes_has.
Qed.

Lemma mysql_duplicate_test (e : Thrown) :
  Mysql2.is_duplicate_primary e = true ↔ Signature.mysql_duplicate_primary e.
Proof.
  unfold Mysql2.is_duplicate_primary, Signature.mysql_duplicate_primary.
  by rewrite andb_true_iff, bool_decide_eq_true, message_includes_has.
Qed.

Lemma prisma_foreign_key_test (e : Thrown) :
  Prisma.is_foreign_key e = true ↔ Signature.prisma_foreign_key e.
Proof.
  unfold Prisma.is_foreign_key, Signature.prisma_foreign_key.
  apply bool_decide_eq_true.
Qed.

Lemma prisma_unique_test (e : Thrown) :
  Prisma.is_unique_id e = true ↔ Signature.prisma_unique_on_id e.
Proof.
  unfold Prisma.is_unique_id, Signature.prisma_unique_on_id.
  by rewrite andb_true_iff, bool_decide_eq_true, message_includes_has.
Qed.

(** The errors of the modelled MySQL server and Prisma client for a
    violated constraint carry the documented signatures. *)
Lemma mysql_missing_reference_signed table v :
  Signature.mysql_foreign_key_on_user_id
    (DriverError (Mysql2.queryError (Db.MissingReference table "user_id" v))).
Proof. apply mysql_foreign_key_test, mysql_foreign_key_signature. Qed.

Lemma mysql_duplicate_signed table id :
  ¬ Signature.mysql_foreign_key_on_user_id
      (DriverError (Mysql2.queryError (Db.DuplicatePrimary table id)))
  ∧ Signature.mysql_duplicate_primary
      (DriverError (Mysql2.queryError (Db.DuplicatePrimary table id))).
Proof.
  destruct (mysql_duplicate_signature table id) as [Hfk Hdup]. split.
  - rewrite <- mysql_foreign_key_test, Hfk. discriminate.
  - by apply mysql_duplicate_test.
Qed.

(** How [setSession] of the mysql2 adapter ends when the write it wraps
    throws [e]. *)
Lemma mysql2_setSession_throws {S : Type}
    (coreAdapter_setSession : Values → M S unit) session s e s' :
  coreAdapter_setSession session s = (Throw e, s') →
  (Signature.mysql_foreign_key_on_user_id e →
   Mysql2.setSession coreAdapter_setSession session s
   = (Throw (LuciaError AUTH_INVALID_USER_ID), s'))
  ∧ (¬ Signature.mysql_foreign_key_on_user_id e →
     Signature.mysql_duplicate_primary e →
     Mysql2.setSession coreAdapter_setSession session s
     = (Throw (LuciaError AUTH_DUPLICATE_SESSION_ID), s'))
  ∧ (¬ Signature.mysql_foreign_key_on_user_id e →
     ¬ Signature.mysql_duplicate_primary e →
     Mysql2.setSession coreAdapter_setSession session s = (Throw e, s')).
Proof.
  intros Hcore. unfold Mysql2.setSession, try_catch, throw. rewrite Hcore.
  destruct (Mysql2.is_foreign_key_user_id e) eqn:Hfk.
  - apply mysql_foreign_key_test in Hfk. by repeat split.
  - assert (Hnfk : ¬ Signature.mysql_foreign_key_on_user_id e)
      by (rewrite <- mysql_foreign_key_test, Hfk; discriminate).
    destruct (Mysql2.is_duplicate_primary e) eqn:Hdup.
    + apply mysql_duplicate_test in Hdup. by repeat split.
    + assert (Hndup : ¬ Signature.mysql_duplicate_primary e)
        by (rewrite <- mysql_duplicate_test, Hdup; discriminate).
      by repeat split.
Qed.

(** The same for the Prisma adapter. *)
Lemma prisma_setSession_throws {S A : Type}
    (authSession_create : Values → M S A) session s e s' :
  authSession_create session s = (Throw e, s') →
  (Signature.prisma_foreign_key e →
   Prisma.setSession authSession_create session s
   = (Throw (LuciaError AUTH_INVALID_USER_ID), s'))
  ∧ (¬ Signature.prisma_foreign_key e →
     Signature.prisma_unique_on_id e →
     Prisma.setSession authSession_create session s
     = (Throw (LuciaError AUTH_DUPLICATE_SESSION_ID), s'))
  ∧ (¬ Signature.prisma_foreign_key e →
     ¬ Signature.prisma_unique_on_id e →
     Prisma.setSession authSession_create session s = (Throw e, s')).
Proof.
  intros Hcreate.
  unfold Prisma.setSession, try_catch, bind, ret, throw. rewrite Hcreate.
  destruct (Prisma.is_foreign_key e) eqn:Hfk.
  - apply prisma_foreign_key_test in Hfk. by repeat split.
  - assert (Hnfk : ¬ Signature.prisma_foreign_key e)
      by (rewrite <- prisma_foreign_key_test, Hfk; discriminate).
    destruct (Prisma.is_unique_id e) eqn:Hdup.
    + apply prisma_unique_test in Hdup. by repeat split.
    + assert (Hndup : ¬ Signature.prisma_unique_on_id e)
        by (rewrite <- prisma_unique_test, Hdup; discriminate).
      by repeat split.
Qed.

(** C8: [setSession] translates constraint violations into domain
    errors and passes everything else through, with both adapters and
    whatever the write it wraps is.  When that write fails with the
    error the database raises for a session whose [user_id] references
    no user (MySQL error 1452 naming [user_id], Prisma P2003),
    [setSession] throws AUTH_INVALID_USER_ID; when it fails with the
    error of a session id that is already taken (MySQL [ER_DUP_ENTRY]
    on PRIMARY, Prisma P2002 on [id]), [setSession] throws
    AUTH_DUPLICATE_SESSION_ID; an error that has neither signature is
    thrown again as it is.  The state the write left is kept, and a
    write that succeeds is not touched. *)
Theorem setSession_translates_constraint_violations
    {S S2 A : Type} (coreAdapter_setSession : Values → M S unit)
    (authSession_create : Values → M S2 A) (session : Values)
    (s : S) (s2 : S2) :
  (∀ table v s',
     coreAdapter_setSession session s
     = (Throw (DriverError
                 (Mysql2.queryError (Db.MissingReference table "user_id" v))),
        s') →
     Mysql2.setSession coreAdapter_setSession session s
     = (Throw (LuciaError AUTH_INVALID_USER_ID), s'))
  ∧ (∀ table id s',
       coreAdapter_setSession session s
       = (Throw (DriverError
                   (Mysql2.queryError (Db.DuplicatePrimary table id))), s') →
       Mysql2.setSession coreAdapter_setSession session s
       = (Throw (LuciaError AUTH_DUPLICATE_SESSION_ID), s'))
  ∧ (∀ e s', coreAdapter_setSession session s = (Throw e, s') →
       (Signature.mysql_foreign_key_on_user_id e →
        Mysql2.setSession coreAdapter_setSession session s
        = (Throw (LuciaError AUTH_INVALID_USER_ID), s'))
       ∧ (¬ Signature.mysql_foreign_key_on_user_id e →
          Signature.mysql_duplicate_primary e →
          Mysql2.setSession coreAdapter_setSession session s
          = (Throw (LuciaError AUTH_DUPLICATE_SESSION_ID), s'))
       ∧ (¬ Signature.mysql_foreign_key_on_user_id e →
          ¬ Signature.mysql_duplicate_primary e →
          Mysql2.setSession coreAdapter_setSession session s = (Throw e, s')))
  ∧ (∀ s', coreAdapter_setSession session s = (Ok tt, s') →
       Mysql2.setSession coreAdapter_setSession session s = (Ok tt, s'))
  ∧ (∀ table col v s',
       authSession_create session s2
       = (Throw (DriverError
                   (Prisma.prismaError (Db.MissingReference table col v))),
          s') →
       Prisma.setSession authSession_create session s2
       = (Throw (LuciaError AUTH_INVALID_USER_ID), s'))
  ∧ (∀ table id s',
       authSession_create session s2
       = (Throw (DriverError
                   (Prisma.prismaError (Db.DuplicatePrimary table id))), s') →
       Prisma.setSession authSession_create session s2
       = (Throw (LuciaError AUTH_DUPLICATE_SESSION_ID), s'))
  ∧ (∀ e s', authSession_create session s2 = (Throw e, s') →
       (Signature.prisma_foreign_key e →
        Prisma.setSession authSession_create session s2
        = (Throw (LuciaError AUTH_INVALID_USER_ID), s'))
       ∧ (¬ Signature.prisma_foreign_key e →
          Signature.prisma_unique_on_id e →
          Prisma.setSession authSession_create session s2
          = (Throw (LuciaError AUTH_DUPLICATE_SESSION_ID), s'))
       ∧ (¬ Signature.prisma_foreign_key e →
          ¬ Signature.prisma_unique_on_id e →
          Prisma.setSession authSession_create session s2 = (Throw e, s')))
  ∧ (∀ a s', authSession_create session s2 = (Ok a, s') →
       Prisma.setSession authSession_create session s2 = (Ok tt, s')).
Proof.
  split; [|split; [|split; [|split; [|split; [|split; [|split]]]]]].
  - intros table v s' Hcore.
    apply (mysql2_setSession_throws _ _ _ _ _ Hcore).
    apply mysql_missing_reference_signed.
  - intros table id s' Hcore.
    destruct (mysql_duplicate_signed table id) as [Hnfk Hdup].
    by apply (mysql2_setSession_throws _ _ _ _ _ Hcore).
  - intros e s' Hcore. exact (mysql2_setSession_throws _ _ _ _ _ Hcore).
  - intros s' Hcore. unfold Mysql2.setSession, try_catch. by rewrite Hcore.
  - intros table col v s' Hcreate.
    by apply (prisma_setSession_throws _ _ _ _ _ Hcreate).
  - intros table id s' Hcreate.
    apply (prisma_setSession_throws _ _ _ _ _ Hcreate).
    + unfold Signature.prisma_foreign_key. simpl. discriminate.
    + split; [done|]. by eexists.
  - intros e s' Hcreate. exact (prisma_setSession_throws _ _ _ _ _ Hcreate).
  - intros a s' Hcreate.
    unfold Prisma.setSession, try_catch, bind, ret. by rewrite Hcreate.
Qed.

End SetSessionFacts.

Lemma setSession_translates_constraint_violations_witness :
  Mysql2.setSession
    (fun session =>
       Mysql2.operator_run [Query.INSERT_INTO Db.session_table session])
    Examples.orphan_session Examples.server
  = (Eff.Throw (Eff.LuciaError Eff.AUTH_INVALID_USER_ID), Examples.server)
  ∧ Mysql2.setSession
      (fun session =>
         Mysql2.operator_run [Query.INSERT_INTO Db.session_table session])
      MoreExamples.session_a MoreExamples.server_with_sessions
    = (Eff.Throw (Eff.LuciaError Eff.AUTH_DUPLICATE_SESSION_ID),
       MoreExamples.server_with_sessions)
  ∧ Mysql2.setSession (fun _ => Eff.throw MoreExamples.refused)
      MoreExamples.session_c Examples.server
    = (Eff.Throw MoreExamples.refused, Examples.server)
  ∧ Prisma.setSession (Prisma.create Db.session_table)
      Examples.orphan_session Examples.tables
    = (Eff.Throw (Eff.LuciaError Eff.AUTH_INVALID_USER_ID), Examples.tables)
  ∧ Prisma.setSession (Prisma.create Db.session_table)
      MoreExamples.session_a MoreExamples.tables_with_sessions
    = (Eff.Throw (Eff.LuciaError Eff.AUTH_DUPLICATE_SESSION_ID),
       MoreExamples.tables_with_sessions)
  ∧ Prisma.setSession (fun _ => Eff.throw (S := Db.Tables) (A := Query.Values)
                                  MoreExamples.refused)
      MoreExamples.session_c Examples.tables
    = (Eff.Throw MoreExamples.refused, Examples.tables)
  ∧ Prisma.setSession (Prisma.create Db.session_table)
      MoreExamples.session_c Examples.tables
    = (Eff.Ok tt,
       <[ Db.session_table := [MoreExamples.session_c] ]> Examples.tables).
Proof.
  pose (core := fun session : Query.Values =>
                  Mysql2.operator_run
                    [Query.INSERT_INTO Db.session_table session]).
  pose (lost := fun _ : Query.Values =>
                  Eff.throw (S := Mysql2.Server) (A := unit)
                    MoreExamples.refused).
  pose (lost' := fun _ : Query.Values =>
                   Eff.throw (S := Db.Tables) (A := Query.Values)
                     MoreExamples.refused).
  pose (create := Prisma.create Db.session_table).
  split; [|split; [|split; [|split; [|split; [|split]]]]].
  - apply (proj1
             (setSession_translates_constraint_violations
                core create Examples.orphan_session
                Examples.server Examples.tables)
             Db.session_table (Query.CString "nobody")).
    vm_compute; reflexivity.
  - apply (proj1 (proj2
             (setSession_translates_constraint_violations
                core create MoreExamples.session_a
                MoreExamples.server_with_sessions Examples.tables))
             Db.session_table (Query.CString "sa")).
    vm_compute; reflexivity.
  - apply (proj1 (proj2 (proj2
             (setSession_translates_constraint_violations
                lost lost' MoreExamples.session_c
                Examples.server Examples.tables)))
             MoreExamples.refused Examples.server eq_refl).
    + intros [Herrno _]. discriminate Herrno.
    + intros [Hcode _]. discriminate Hcode.
  - apply (proj1 (proj2 (proj2 (proj2 (proj2
             (setSession_translates_constraint_violations
                core create Examples.orphan_session
                Examples.server Examples.tables)))))
             Db.session_table "user_id" (Query.CString "nobody")).
    vm_compute; reflexivity.
  - apply (proj1 (proj2 (proj2 (proj2 (proj2 (proj2
             (setSession_translates_constraint_violations
                core create MoreExamples.session_a
                Examples.server MoreExamples.tables_with_sessions))))))
             Db.session_table (Query.CString "sa")).
    vm_compute; reflexivity.
  - apply (proj1 (proj2 (proj2 (proj2 (proj2 (proj2 (proj2
             (setSession_translates_constraint_violations
                lost lost' MoreExamples.session_c
                Examples.server Examples.tables)))))))
             MoreExamples.refused Examples.tables eq_refl).
    + intros Hcode. discriminate Hcode.
    + intros [Hcode _]. discriminate Hcode.
  - apply (proj2 (proj2 (proj2 (proj2 (proj2 (proj2 (proj2
             (setSession_translates_constraint_violations
                core create MoreExamples.session_c
                Examples.server Examples.tables)))))))
             MoreExamples.session_c).
    vm_compute; reflexivity.
Defined.

(** ** The request validator *)

Section RequestFacts.
Import Eff Request.
Context {Store Cookie : Type}.
Variable auth : Auth Store Cookie.
Variable utils : Utils.

(** *** Origin check *)

(** A host that is configured is the expected host, whatever the URL and
    the headers say. *)
Lemma isValidRequestOrigin_configured_host rq config origin h :
  JS.truthy (headers_get (headers rq) "Origin") = Some origin →
  host config = JS.value h →
  isValidRequestOrigin utils rq config
  = isAllowedOrigin utils origin h
      (default (SubDomains []) (allowedSubDomains config)).
Proof.
  intros Horigin Hhost. unfold isValidRequestOrigin.
  by rewrite Horigin, Hhost.
Qed.

(** The URL and the host header are looked at only when the configured
    host is [null]. *)
Lemma isValidRequestOrigin_null_host rq config origin :
  JS.truthy (headers_get (headers rq) "Origin") = Some origin →
  host config = JS.null →
  isValidRequestOrigin utils rq config
  = match
      match url rq with
      | Some u => url_host <$> safeParseUrl utils u
      | None => headers_get (headers rq) (default "Host" (hostHeader config))
      end
    with
    | Some h =>
        isAllowedOrigin utils origin h
          (default (SubDomains []) (allowedSubDomains config))
    | None => false
    end.
Proof.
  intros Horigin Hhost. unfold isValidRequestOrigin.
  by rewrite Horigin, Hhost.
Qed.

(** C5, on the code: a configuration without a [host] property (the
    property is [undefined], not [null]) takes the first branch of the
    chain, finds no host there, and the check fails, whatever the URL,
    the host header and the origin are. *)
Theorem isValidRequestOrigin_without_configured_host
    (rq : LuciaRequest) (config : CSRFProtectionConfiguration) :
  host config = JS.undefined →
  isValidRequestOrigin utils rq config = false.
Proof.
  intros Hhost. unfold isValidRequestOrigin. rewrite Hhost. simpl.
  by destruct (JS.truthy _).
Qed.

(** C4: with CSRF protection enabled and no Origin header, the origin
    check fails under every configuration, the constructor resolves no
    stored session id whatever cookie the request carries, and
    [validate] returns none without calling the session validation,
    writing a cookie or touching storage. *)
Theorem missing_origin_is_anonymous
    (requestContext : RequestContext) (csrfProtection : CsrfProtection)
    (w : World Store Cookie) :
  csrfProtection ≠ CsrfBoolean false →
  headers_get (headers (request requestContext)) "Origin" = None →
  (∀ config, isValidRequestOrigin utils (request requestContext) config = false)
  ∧ storedSessionId (constructor auth utils requestContext csrfProtection)
    = None
  ∧ validate auth (constructor auth utils requestContext csrfProtection) w
    = (Returns None,
       {| storedSessionId := None;
          bearerToken :=
            bearerToken (constructor auth utils requestContext csrfProtection);
          validatePromise := Some (Resolved None);
          validateBearerTokenPromise := None |},
       w).
Proof.
  intros Henabled Horigin.
  assert (Hinvalid :
    ∀ config, isValidRequestOrigin utils (request requestContext) config = false).
  { intros config. unfold isValidRequestOrigin. by rewrite Horigin. }
  assert (Hstored :
    storedSessionId (constructor auth utils requestContext csrfProtection)
    = None).
  { unfold constructor. simpl. rewrite Hinvalid.
    destruct csrfProtection as [[|]|c]; simpl; congruence. }
  split; [exact Hinvalid|]. split; [exact Hstored|].
  assert (Hvp :
    validatePromise (constructor auth utils requestContext csrfProtection)
    = None) by reflexivity.
  assert (Hbp :
    validateBearerTokenPromise
      (constructor auth utils requestContext csrfProtection)
    = None) by reflexivity.
  destruct (constructor auth utils requestContext csrfProtection)
    as [stored bearer vp bp].
  simpl in *. subst. reflexivity.
Qed.

(** *** Memoization *)

(** The cookie kind is memoized as long as no bearer validation comes in
    between: a second [validate] returns what the first returned and
    changes nothing. *)
Lemma validate_memoized (this : AuthRequest) (w : World Store Cookie) :
  validate auth (validate auth this w).1.2 (validate auth this w).2
  = ((validate auth this w).1.1, (validate auth this w).1.2,
     (validate auth this w).2).
Proof.
  unfold validate at 2 3 4 5 6.
  destruct (validatePromise this) as [p|] eqn:Hp.
  - simpl. unfold validate. by rewrite Hp.
  - destruct (validate_executor auth this w) as [[r this1] w1].
    destruct (new_Promise_async r w1) as [p w2]. reflexivity.
Qed.

(** What one bearer validation does to the object and to the world. *)
Lemma validateBearerToken_effect
    (this : AuthRequest) (w : World Store Cookie) (token : string) :
  validateBearerTokenPromise this = None →
  JS.truthy (bearerToken this) = Some token →
  validateBearerTokenPromise (validateBearerToken auth this w).1.2 = None
  ∧ bearerToken (validateBearerToken auth this w).1.2 = bearerToken this
  ∧ storedSessionId (validateBearerToken auth this w).1.2
    = storedSessionId this
  ∧ validateSessionCalls (validateBearerToken auth this w).2
    = validateSessionCalls w ++ [token]
  ∧ setCookieCalls (validateBearerToken auth this w).2 = setCookieCalls w
  ∧ store (validateBearerToken auth this w).2
    = (validateSession auth token (store w)).2
  ∧ ∃ p, validatePromise (validateBearerToken auth this w).1.2 = Some p
         ∧ await p = (validateBearerToken auth this w).1.1.
Proof.
  intros Hnone Htoken.
  unfold validateBearerToken, validateBearerToken_executor,
    call_validateSession.
  rewrite Hnone, Htoken.
  destruct (validateSession auth token (store w)) as [[session|e] st1];
    [|destruct (instanceof_LuciaError e)]; simpl; eauto 10.
Qed.

(** C1, on the code: [validateBearerToken] never fills
    [validateBearerTokenPromise]; it stores its promise in
    [validatePromise].  So a second call validates the token again, and
    a [validate] that follows returns the result of the bearer
    validation without looking at the session cookie. *)
Theorem validateBearerToken_not_memoized
    (this : AuthRequest) (w : World Store Cookie) (token : string) :
  validateBearerTokenPromise this = None →
  JS.truthy (bearerToken this) = Some token →
  let first := validateBearerToken auth this w in
  let second := validateBearerToken auth first.1.2 first.2 in
  validateBearerTokenPromise first.1.2 = None
  ∧ validateSessionCalls second.2 = validateSessionCalls w ++ [token; token]
  ∧ validate auth first.1.2 first.2 = first.
Proof.
  intros Hnone Htoken first second.
  destruct (validateBearerToken_effect this w token Hnone Htoken)
    as (Hnone1 & Hbearer1 & _ & Hcalls1 & _ & _ & p & Hp & Hawait).
  fold first in Hnone1, Hbearer1, Hcalls1, Hp, Hawait.
  split; [exact Hnone1|]. split.
  - rewrite <- Hbearer1 in Htoken.
    destruct (validateBearerToken_effect first.1.2 first.2 token Hnone1 Htoken)
      as (_ & _ & _ & Hcalls2 & _).
    fold second in Hcalls2. rewrite Hcalls2, Hcalls1.
    by rewrite <- app_assoc.
  - unfold validate. rewrite Hp, Hawait. by destruct first as [[o t] w1].
Qed.

(** *** Errors of the session validation *)

Lemma truthy_Some (x : option string) (s : string) :
  JS.truthy x = Some s → x = Some s.
Proof. destruct x as [[|c x]|]; simpl; congruence. Qed.

(** C3, as the code has it: [validate] absorbs every [LuciaError],
    whatever its message: it returns none, forgets the stored session
    id and writes the clearing cookie.  An error that is no
    [LuciaError] is not absorbed: [validate] does not return, and no
    cookie is written. *)
Theorem validate_absorbs_every_LuciaError
    (this : AuthRequest) (w : World Store Cookie) (sid : string)
    (e : Thrown) (st1 : Store) :
  validatePromise this = None →
  JS.truthy (storedSessionId this) = Some sid →
  validateSession auth sid (store w) = (Throw e, st1) →
  (instanceof_LuciaError e = true →
     (validate auth this w).1.1 = Returns None
     ∧ storedSessionId (validate auth this w).1.2 = None
     ∧ setCookieCalls (validate auth this w).2
       = setCookieCalls w ++ [createSessionCookie auth None]
     ∧ unhandledRejections (validate auth this w).2 = unhandledRejections w)
  ∧ (instanceof_LuciaError e = false →
       (∀ r, (validate auth this w).1.1 ≠ Returns r)
       ∧ storedSessionId (validate auth this w).1.2 = storedSessionId this
       ∧ setCookieCalls (validate auth this w).2 = setCookieCalls w).
Proof.
  intros Hnone Hsid Hfail.
  unfold validate, validate_executor, call_validateSession.
  rewrite Hnone, Hsid, Hfail.
  split; intros Hlucia; rewrite Hlucia.
  -     apply truthy_Some in Hsid.
    unfold setSessionCookie. rewrite Hsid. simpl. done.
  - simpl. repeat split. intros r. discriminate.
Qed.

End RequestFacts.

(** *** Bearer tokens against the session manager *)

Section BearerFacts.
Import Eff Request.
Variable config : SessionManager.Configuration.
Variable readSessionCookie : option string → option string.

Local Abbreviation auth := (SessionManager.auth config readSessionCookie).

(** C2, as the code has it: [validateBearerToken] resolves the bearer
    token with [Auth.validateSession], the call [validate] makes for
    the cookie, and writes no cookie.  An active session is returned as
    it is and storage is left alone; an idle session is renewed: its row
    is deleted, a replacement row is inserted and the replacement is
    returned, fresh; a token that is unknown or whose session is dead
    yields none; a request without a bearer token yields none without
    any call. *)
Theorem validateBearerToken_validates_and_renews
    (this : AuthRequest) (w : World SessionManager.Store string) :
  validateBearerTokenPromise this = None →
  (JS.truthy (bearerToken this) = None →
     (validateBearerToken auth this w).1.1 = Returns None
     ∧ (validateBearerToken auth this w).2 = w)
  ∧ (∀ token, JS.truthy (bearerToken this) = Some token →
       validateSessionCalls (validateBearerToken auth this w).2
       = validateSessionCalls w ++ [token]
       ∧ setCookieCalls (validateBearerToken auth this w).2 = setCookieCalls w
       ∧ store (validateBearerToken auth this w).2
         = (SessionManager.validateAndRenew config token (store w)).2
       ∧ (∀ row,
            SessionManager.sessions (store w) !! token = Some row →
            Expiration.state (SessionManager.now (store w))
              (SessionManager.active_expires row)
              (SessionManager.idle_expires row) = Expiration.active →
            (validateBearerToken auth this w).1.1
            = Returns
                (Some (SessionManager.toSession token row Expiration.active
                         false))
            ∧ store (validateBearerToken auth this w).2 = store w)
       ∧ (∀ row,
            SessionManager.sessions (store w) !! token = Some row →
            Expiration.state (SessionManager.now (store w))
              (SessionManager.active_expires row)
              (SessionManager.idle_expires row) = Expiration.idle →
            SessionManager.sessions (store w)
              !! SessionManager.generate config
                   (SessionManager.generated (store w)) = None →
            ∃ renewed,
              (validateBearerToken auth this w).1.1 = Returns (Some renewed)
              ∧ fresh renewed = true
              ∧ sessionId renewed
                = SessionManager.generate config
                    (SessionManager.generated (store w))
              ∧ userId renewed = SessionManager.user_id row
              ∧ attributes renewed = SessionManager.session_attributes row
              ∧ SessionManager.sessions (store (validateBearerToken auth this w).2)
                  !! token = None
              ∧ is_Some
                  (SessionManager.sessions
                     (store (validateBearerToken auth this w).2)
                     !! sessionId renewed))
       ∧ ((SessionManager.sessions (store w) !! token = None
           ∨ ∃ row,
               SessionManager.sessions (store w) !! token = Some row
               ∧ Expiration.state (SessionManager.now (store w))
                   (SessionManager.active_expires row)
                   (SessionManager.idle_expires row) = Expiration.dead) →
          (validateBearerToken auth this w).1.1 = Returns None
          ∧ store (validateBearerToken auth this w).2 = store w)).
Proof.
  intros Hnone. split.
  - intros Habsent.
    unfold validateBearerToken, validateBearerToken_executor.
    rewrite Hnone, Habsent. simpl. by destruct w.
  - intros token Htoken.
    destruct (validateBearerToken_effect auth this w token Hnone Htoken)
      as (_ & _ & _ & Hcalls & Hcookies & Hstore & _).
    split; [exact Hcalls|]. split; [exact Hcookies|].
    split; [exact Hstore|].
    unfold validateBearerToken, validateBearerToken_executor,
      call_validateSession.
    rewrite Hnone, Htoken.
    cbn [SessionManager.auth validateSession].
    unfold SessionManager.validateAndRenew.
    split; [|split].
    + intros row Hrow Hactive. by rewrite Hrow, Hactive.
    + intros row Hrow Hidle Hfree. rewrite Hrow, Hidle.
      assert (Hne : SessionManager.generate config
                      (SessionManager.generated (store w)) ≠ token)
        by (intros Heq; rewrite Heq in Hfree; congruence).
      unfold SessionManager.renewRow.
      rewrite lookup_delete_ne by done. rewrite Hfree. simpl.
      eexists. split; [reflexivity|]. simpl.
      repeat split.
      * rewrite lookup_insert_ne by done. apply lookup_delete_eq.
      * rewrite lookup_insert_eq. by eexists.
    + intros [Hmissing | (row & Hrow & Hdead)].
      * by rewrite Hmissing.
      * by rewrite Hrow, Hdead.
Qed.

End BearerFacts.

(** ** The statements at concrete inputs *)

Lemma resolveQueryBlocks_placeholders_in_order_witness :
  Forall Query.wf_block Examples.update_password
  ∧ Query.placeholders
      (Query.statement (Query.resolveQueryBlocks Examples.update_password))
    = [1; 2; 3]
  ∧ Query.bind_params
      (Query.qparams (Query.resolveQueryBlocks Examples.update_password))
      (Query.statement (Query.resolveQueryBlocks Examples.update_password))
    = Some (Query.inline Examples.update_password).
Proof.
  assert (Hwf : Forall Query.wf_block Examples.update_password).
  { repeat constructor; simpl; set_solver. }
  split; [exact Hwf|]. split.
  - exact (proj1 (resolveQueryBlocks_placeholders_in_order
                    Examples.update_password)).
  - exact (proj2 (resolveQueryBlocks_placeholders_in_order
                    Examples.update_password) Hwf).
Defined.

(** The text of a resolved statement, as the driver receives it. *)
Example statementText_select :
  Query.statementText
    (Query.resolveQueryBlocks
       [Query.SELECT "auth_key" ["*"];
        Query.AND
          [ {| Query.column := "id"; Query.comparator := "=";
               Query.value := Query.CString "github:1" |};
            {| Query.column := "primary_key"; Query.comparator := "=";
               Query.value := Query.CBoolean false |} ]])
  = "SELECT * FROM " +:+ JS.dquote +:+ "auth_key" +:+ JS.dquote
    +:+ " WHERE id = $1 AND primary_key = $2".
Proof. reflexivity. Qed.

Lemma deleteNonPrimaryKey_preserves_primary_keys_witness :
  Examples.ann_key ∈ Db.rows Examples.tables Db.key_table
  ∧ Query.prop Examples.ann_key "primary_key" = Some (Query.CBoolean true)
  ∧ Examples.ann_key
    ∈ Db.rows
        (Prisma.deleteNonPrimaryKey "email:ann@example.com" Examples.tables).2
        Db.key_table.
Proof.
  assert (Hin : Examples.ann_key ∈ Db.rows Examples.tables Db.key_table).
  { vm_compute. apply list_elem_of_here. }
  split; [exact Hin|]. split; [reflexivity|].
  exact (proj1 (proj2 (deleteNonPrimaryKey_preserves_primary_keys
                         "email:ann@example.com" Examples.tables))
           Examples.ann_key Hin eq_refl).
Defined.

(** A key that is not primary is removed by the same call. *)
Example deleteNonPrimaryKey_unlinks :
  Db.rows (Prisma.deleteNonPrimaryKey "github:1" Examples.tables).2
    Db.key_table
  = [Examples.ann_key].
Proof. vm_compute. reflexivity. Qed.

Lemma isValidRequestOrigin_without_configured_host_witness :
  Request.host Request.empty_configuration = JS.undefined
  ∧ Request.isValidRequestOrigin Examples.lenient_utils
      Examples.same_origin_request Request.empty_configuration
    = false.
Proof.
  split; [reflexivity|].
  apply isValidRequestOrigin_without_configured_host. reflexivity.
Defined.

(** The same request passes once the configuration says [host: null]. *)
Example isValidRequestOrigin_null_host_example :
  Request.isValidRequestOrigin Examples.lenient_utils
    Examples.same_origin_request
    {| Request.host := JS.null; Request.hostHeader := None;
       Request.allowedSubDomains := None |}
  = true.
Proof. reflexivity. Qed.

Lemma missing_origin_is_anonymous_witness :
  Request.CsrfBoolean true ≠ Request.CsrfBoolean false
  ∧ Request.headers_get
      (Request.headers (Request.request Examples.no_origin_request)) "Origin"
    = None
  ∧ Request.storedSessionId
      (Request.constructor Examples.session_auth Examples.lenient_utils
         Examples.no_origin_request (Request.CsrfBoolean true))
    = None
  ∧ (Request.validate Examples.session_auth
       (Request.constructor Examples.session_auth Examples.lenient_utils
          Examples.no_origin_request (Request.CsrfBoolean true))
       Examples.idle_world).1.1
    = Request.Returns None.
Proof.
  assert (Henabled : Request.CsrfBoolean true ≠ Request.CsrfBoolean false)
    by discriminate.
  assert (Horigin :
    Request.headers_get
      (Request.headers (Request.request Examples.no_origin_request)) "Origin"
    = None) by reflexivity.
  split; [exact Henabled|]. split; [exact Horigin|].
  destruct (missing_origin_is_anonymous Examples.session_auth
              Examples.lenient_utils Examples.no_origin_request
              (Request.CsrfBoolean true) Examples.idle_world Henabled Horigin)
    as (_ & Hstored & Hvalidate).
  split; [exact Hstored|]. by rewrite Hvalidate.
Defined.

(** With the check switched off the same request resolves its cookie. *)
Example csrf_disabled_reads_cookie :
  Request.storedSessionId
    (Request.constructor Examples.session_auth Examples.lenient_utils
       Examples.no_origin_request (Request.CsrfBoolean false))
  = Some "s1".
Proof. reflexivity. Qed.

Lemma validateBearerToken_not_memoized_witness :
  Request.validateBearerTokenPromise
    (Request.constructor Examples.session_auth Examples.lenient_utils
       Examples.bearer_request (Request.CsrfBoolean true)) = None
  ∧ JS.truthy
      (Request.bearerToken
         (Request.constructor Examples.session_auth Examples.lenient_utils
            Examples.bearer_request (Request.CsrfBoolean true))) = Some "s1"
  ∧ Request.validateSessionCalls
      (Request.validateBearerToken Examples.session_auth
         (Request.validateBearerToken Examples.session_auth
            (Request.constructor Examples.session_auth Examples.lenient_utils
               Examples.bearer_request (Request.CsrfBoolean true))
            Examples.idle_world).1.2
         (Request.validateBearerToken Examples.session_auth
            (Request.constructor Examples.session_auth Examples.lenient_utils
               Examples.bearer_request (Request.CsrfBoolean true))
            Examples.idle_world).2).2
    = ["s1"; "s1"].
Proof.
  split; [reflexivity|]. split; [reflexivity|].
  exact (proj1 (proj2 (validateBearerToken_not_memoized Examples.session_auth
                         (Request.constructor Examples.session_auth
                            Examples.lenient_utils Examples.bearer_request
                            (Request.CsrfBoolean true))
                         Examples.idle_world "s1" eq_refl eq_refl))).
Defined.

(** In that run the first call renews the idle session and the second,
    validating the same token again, finds it gone. *)
Example validateBearerToken_twice :
  let this :=
    Request.constructor Examples.session_auth Examples.lenient_utils
      Examples.bearer_request (Request.CsrfBoolean true) in
  let first := Request.validateBearerToken Examples.session_auth this
                 Examples.idle_world in
  let second := Request.validateBearerToken Examples.session_auth
                  first.1.2 first.2 in
  Request.sessionId <$> (match first.1.1 with
                         | Request.Returns r => r
                         | _ => None
                         end) = Some "renewed-0"
  ∧ second.1.1 = Request.Returns None.
Proof. vm_compute. split; reflexivity. Qed.

(** C2, against the claim: the bearer token of an idle session is not
    resolved with get semantics.  [get] returns the idle session as it
    is and writes nothing; [validateBearerToken] deletes the presented
    row, inserts a replacement and returns the replacement. *)
Lemma validateBearerToken_renews_idle_session :
  let this :=
    Request.constructor Examples.session_auth Examples.lenient_utils
      Examples.bearer_request (Request.CsrfBoolean true) in
  let out := Request.validateBearerToken Examples.session_auth this
               Examples.idle_world in
  SessionManager.get "s1" Examples.idle_store
  = (Eff.Ok (SessionManager.toSession "s1" Examples.s1_row Expiration.idle
               false),
     Examples.idle_store)
  ∧ out.1.1
    = Request.Returns
        (Some {| Request.sessionId := "renewed-0";
                 Request.userId := "u0";
                 Request.activePeriodExpiresAt := 9000000;
                 Request.idlePeriodExpiresAt := 12600000;
                 Request.state := Expiration.active;
                 Request.fresh := true;
                 Request.attributes := [("country", "nz")] |})
  ∧ SessionManager.sessions (Request.store out.2) !! "s1" = None
  ∧ SessionManager.sessions (Request.store out.2) !! "renewed-0"
    = Some {| SessionManager.user_id := "u0";
              SessionManager.active_expires := 9000000;
              SessionManager.idle_expires := 12600000;
              SessionManager.session_attributes := [("country", "nz")] |}.
Proof. vm_compute. repeat split. Qed.

Lemma validateBearerToken_validates_and_renews_witness :
  Request.validateBearerTokenPromise
    (Request.constructor Examples.session_auth Examples.lenient_utils
       Examples.bearer_request (Request.CsrfBoolean true)) = None
  ∧ JS.truthy
      (Request.bearerToken
         (Request.constructor Examples.session_auth Examples.lenient_utils
            Examples.bearer_request (Request.CsrfBoolean true))) = Some "s1"
  ∧ Request.setCookieCalls
      (Request.validateBearerToken Examples.session_auth
         (Request.constructor Examples.session_auth Examples.lenient_utils
            Examples.bearer_request (Request.CsrfBoolean true))
         Examples.idle_world).2
    = [].
Proof.
  split; [reflexivity|]. split; [reflexivity|].
  exact (proj1 (proj2 (proj2 (validateBearerToken_validates_and_renews
                                Examples.configuration
                                (fun cookieHeader => cookieHeader)
                                (Request.constructor Examples.session_auth
                                   Examples.lenient_utils
                                   Examples.bearer_request
                                   (Request.CsrfBoolean true))
                                Examples.idle_world eq_refl)
                         "s1" eq_refl))).
Defined.

(** C3, against the claim: when the session validation fails with
    InvalidUserId, [validate] does not raise it again: it returns none
    and writes the clearing cookie. *)
Lemma validate_absorbs_InvalidUserId :
  Request.validateSession
    (Examples.failing_auth (Eff.LuciaError Eff.AUTH_INVALID_USER_ID)) "s1" tt
  = (Eff.Throw (Eff.LuciaError Eff.AUTH_INVALID_USER_ID), tt)
  ∧ (Request.validate
       (Examples.failing_auth (Eff.LuciaError Eff.AUTH_INVALID_USER_ID))
       Examples.with_cookie Examples.empty_world).1.1
    = Request.Returns None
  ∧ (Request.validate
       (Examples.failing_auth (Eff.LuciaError Eff.AUTH_INVALID_USER_ID))
       Examples.with_cookie Examples.empty_world).1.1
    ≠ Request.Throws (Eff.LuciaError Eff.AUTH_INVALID_USER_ID)
  ∧ Request.setCookieCalls
      (Request.validate
         (Examples.failing_auth (Eff.LuciaError Eff.AUTH_INVALID_USER_ID))
         Examples.with_cookie Examples.empty_world).2
    = [SessionManager.createSessionCookie None].
Proof. vm_compute. repeat split. discriminate. Qed.

Lemma validate_absorbs_every_LuciaError_witness :
  Request.validatePromise Examples.with_cookie = None
  ∧ JS.truthy (Request.storedSessionId Examples.with_cookie) = Some "s1"
  ∧ Request.validateSession
      (Examples.failing_auth (Eff.LuciaError Eff.AUTH_DUPLICATE_SESSION_ID))
      "s1" (Request.store Examples.empty_world)
    = (Eff.Throw (Eff.LuciaError Eff.AUTH_DUPLICATE_SESSION_ID), tt)
  ∧ (Request.validate
       (Examples.failing_auth (Eff.LuciaError Eff.AUTH_DUPLICATE_SESSION_ID))
       Examples.with_cookie Examples.empty_world).1.1
    = Request.Returns None.
Proof.
  split; [reflexivity|]. split; [reflexivity|]. split; [reflexivity|].
  exact (proj1 (proj1 (validate_absorbs_every_LuciaError
                         (Examples.failing_auth
                            (Eff.LuciaError Eff.AUTH_DUPLICATE_SESSION_ID))
                         Examples.with_cookie Examples.empty_world "s1"
                         (Eff.LuciaError Eff.AUTH_DUPLICATE_SESSION_ID) tt
                         eq_refl eq_refl eq_refl)
                      eq_refl)).
Defined.

(** A storage error thrown inside the [async] executor reaches nobody:
    the promise [validate] awaits stays pending and the error is left
    as an unhandled rejection. *)
Example validate_storage_error_never_settles :
  let e :=
    Eff.DriverError
      {| Eff.code := Some "ECONNREFUSED"; Eff.errno := None;
         Eff.message := Some "connect ECONNREFUSED" |} in
  let out :=
    Request.validate (Examples.failing_auth e) Examples.with_cookie
      Examples.empty_world in
  out.1.1 = Request.NeverSettles
  ∧ Request.unhandledRejections out.2 = [e]
  ∧ Request.setCookieCalls out.2 = [].
Proof. vm_compute. repeat split. Qed.

(** ** More on the query blocks *)

Section MoreQueryFacts.
Import Query QueryShape.

Lemma resolveLoop_app (a b : list Block) chunks ps :
  resolveLoop (a ++ b) chunks ps
  = resolveLoop b (resolveLoop a chunks ps).1 (resolveLoop a chunks ps).2.
Proof.
  revert chunks ps. induction a as [|x a IH]; intros chunks ps; [done|].
  simpl. apply IH.
Qed.

(** The parameters of a block do not depend on where its numbering
    starts. *)
Lemma params_offset (block : Block) (c c' : nat) :
  params (resolveQueryBlock block c) = params (resolveQueryBlock block c').
Proof.
  destruct block; simpl; try done.
  rewrite !foldl_params, !fmap_imap. unfold compose. simpl.
  reflexivity.
Qed.

Lemma params_arity (block : Block) (c : nat) :
  length (params (resolveQueryBlock block c)) = arity block.
Proof.
  destruct block as [tt tc col|t cols|cols|t values|w|ws|t|t values];
    simpl; try done.
  - unfold Object_keys. by rewrite !length_fmap.
  - rewrite foldl_params, fmap_imap. unfold compose. simpl.
    change (imap (fun (_ : nat) (x : WhereBlock) => [value x]) ws)
      with (imap (const (fun x : WhereBlock => [value x])) ws).
    by rewrite imap_const, mjoin_singletons, length_fmap.
  - unfold Object_keys. by rewrite !length_fmap.
Qed.

(** The chunks the loop adds depend on the parameters collected so far
    only through their number, and the parameters it adds do not depend
    on them at all. *)
Lemma resolveLoop_from (blocks : list Block) chunks ps :
  (resolveLoop blocks chunks ps).1
  = chunks ++ (resolveLoop blocks [] (replicate (length ps) CNull)).1
  ∧ (resolveLoop blocks chunks ps).2
    = ps ++ (resolveLoop blocks [] []).2.
Proof.
  revert chunks ps. induction blocks as [|b rest IH]; intros chunks ps.
  - simpl. by rewrite !app_nil_r.
  - simpl. rewrite length_replicate.
    destruct (IH (chunks ++ [queryChunk (resolveQueryBlock b (length ps))])
                 (ps ++ params (resolveQueryBlock b (length ps))))
      as [-> ->].
    destruct (IH [queryChunk (resolveQueryBlock b (length ps))]
                 (replicate (length ps) CNull
                  ++ params (resolveQueryBlock b (length ps))))
      as [-> _].
    destruct (IH [queryChunk (resolveQueryBlock b 0)]
                 (params (resolveQueryBlock b 0))) as [_ ->].
    rewrite !length_app, length_replicate, <- !app_assoc.
    by rewrite (params_offset b (length ps) 0).
Qed.

(** X1: resolving a list of blocks followed by another gives the
    parameters of the first followed by the parameters of the second:
    the numbering of the placeholders moves, the values and their order
    do not. *)
Theorem resolveQueryBlocks_params_app (a b : list Block) :
  qparams (resolveQueryBlocks (a ++ b))
  = qparams (resolveQueryBlocks a) ++ qparams (resolveQueryBlocks b).
Proof.
  unfold resolveQueryBlocks. rewrite resolveLoop_app.
  destruct (resolveLoop a [] []) as [ca pa] eqn:Ha. simpl.
  destruct (resolveLoop_from b ca pa) as [_ Hb].
  destruct (resolveLoop b ca pa) as [cb pb]. simpl in Hb. subst pb.
  by destruct (resolveLoop b [] []).
Qed.

Lemma resolveLoop_count (blocks : list Block) chunks ps :
  length (resolveLoop blocks chunks ps).2
  = length ps + sum_list (arity <$> blocks).
Proof.
  revert chunks ps. induction blocks as [|b rest IH]; intros chunks ps.
  - csimpl. lia.
  - csimpl. rewrite IH, length_app, params_arity. lia.
Qed.

(** X2: the number of parameters, and so the number of placeholders of
    the statement, is the number of values the blocks carry: one per
    property of an [INSERT INTO] or [UPDATE], one per condition of a
    [WHERE] or [AND], none for the other blocks. *)
Theorem resolveQueryBlocks_params_count (blocks : list Block) :
  length (qparams (resolveQueryBlocks blocks)) = sum_list (arity <$> blocks)
  ∧ placeholders (statement (resolveQueryBlocks blocks))
    = seq 1 (sum_list (arity <$> blocks)).
Proof.
  assert (Hcount :
    length (qparams (resolveQueryBlocks blocks))
    = sum_list (arity <$> blocks)).
  { unfold resolveQueryBlocks.
    pose proof (resolveLoop_count blocks [] []) as Hc.
    by destruct (resolveLoop blocks [] []). }
  split; [exact Hcount|].
  rewrite <- Hcount. unfold resolveQueryBlocks.
  destruct (resolveLoop_ok blocks [] []) as (cs & vs & -> & Hph & _).
  simpl. by rewrite placeholders_join.
Qed.

Lemma blank_values_keys (values : Values) :
  Object_keys (blank_values values) = Object_keys values.
Proof.
  unfold Object_keys, blank_values. rewrite <- list_fmap_compose.
  by apply list_fmap_ext.
Qed.

Lemma queryChunk_blank (block : Block) (c : nat) :
  queryChunk (resolveQueryBlock (blank block) c)
  = queryChunk (resolveQueryBlock block c).
Proof.
  destruct block as [tt tc col|t cols|cols|t values|w|ws|t|t values];
    simpl; try done.
  - by rewrite blank_values_keys.
  - by rewrite !fmap_imap, imap_fmap.
  - by rewrite blank_values_keys.
Qed.

Lemma arity_blank (block : Block) : arity (blank block) = arity block.
Proof.
  destruct block; simpl; try done; unfold blank_values;
    by rewrite length_fmap.
Qed.

Lemma resolveLoop_blank (blocks : list Block) chunks ps ps' :
  length ps = length ps' →
  (resolveLoop (blank <$> blocks) chunks ps).1
  = (resolveLoop blocks chunks ps').1.
Proof.
  revert chunks ps ps'.
  induction blocks as [|b rest IH]; intros chunks ps ps' Hlen; [done|].
  csimpl. rewrite queryChunk_blank, Hlen. apply IH.
  by rewrite !length_app, !params_arity, Hlen, arity_blank.
Qed.

(** X3: no value ever gets into the text of the statement.  Two lists of
    blocks that differ in their values only (same tables, columns and
    comparators) resolve to the same statement; the values travel in
    the parameters alone. *)
Theorem resolveQueryBlocks_statement_ignores_values (a b : list Block) :
  blank <$> a = blank <$> b →
  statement (resolveQueryBlocks a) = statement (resolveQueryBlocks b)
  ∧ statementText (resolveQueryBlocks a) = statementText (resolveQueryBlocks b).
Proof.
  intros Hshape.
  assert (Hstmt :
    statement (resolveQueryBlocks a) = statement (resolveQueryBlocks b)).
  { unfold resolveQueryBlocks.
    pose proof (resolveLoop_blank a [] [] [] eq_refl) as Ha.
    pose proof (resolveLoop_blank b [] [] [] eq_refl) as Hb.
    rewrite Hshape in Ha.
    destruct (resolveLoop a [] []) as [ca pa].
    destruct (resolveLoop b [] []) as [cb pb].
    simpl in *. congruence. }
  split; [exact Hstmt|]. unfold statementText. by rewrite Hstmt.
Qed.

Lemma render_and_where (w : WhereBlock) (c : nat) :
  render (queryChunk (resolveQueryBlock (AND [w]) c))
  = render (queryChunk (resolveQueryBlock (WHERE w) c))
  ∧ params (resolveQueryBlock (AND [w]) c)
    = params (resolveQueryBlock (WHERE w) c).
Proof.
  split; [|done]. simpl. rewrite Nat.add_0_r.
  by rewrite <- append_assoc.
Qed.

(** X4: a conjunction of one condition is that condition: inside any
    list of blocks, [AND [w]] and [WHERE w] give the same statement text
    and the same parameters. *)
Theorem resolveQueryBlocks_and_singleton
    (before after : list Block) (w : WhereBlock) :
  statementText (resolveQueryBlocks (before ++ AND [w] :: after))
  = statementText (resolveQueryBlocks (before ++ WHERE w :: after))
  ∧ qparams (resolveQueryBlocks (before ++ AND [w] :: after))
    = qparams (resolveQueryBlocks (before ++ WHERE w :: after)).
Proof.
  rewrite !statementText_join.
  unfold resolveQueryBlocks. rewrite !resolveLoop_app.
  destruct (resolveLoop before [] []) as [cs ps]. simpl.
  destruct (render_and_where w (length ps)) as [Hrender Hparams].
  simpl in Hrender, Hparams.
  destruct (resolveLoop_from after
              (cs ++ [[Lit "WHERE ";
                       Lit (column w +:+ " " +:+ comparator w +:+ " ");
                       Ph (length ps + 1 + 0)]])
              (ps ++ [value w])) as [H1 H2].
  destruct (resolveLoop_from after
              (cs ++ [[Lit ("WHERE " +:+ column w +:+ " " +:+ comparator w
                            +:+ " ");
                       Ph (length ps + 1)]])
              (ps ++ [value w])) as [H3 H4].
  destruct (resolveLoop after (cs ++ [[Lit "WHERE "; _; _]]) _) as [c1 p1].
  destruct (resolveLoop after (cs ++ [[Lit _; Ph (length ps + 1)]]) _)
    as [c2 p2].
  simpl in *. subst. split; [|done].
  rewrite !fmap_app. do 2 f_equal. simpl. by rewrite Hrender.
Qed.

End MoreQueryFacts.
(** ** The operator *)

Section OperatorFacts.
Import Eff Query.
Context {S : Type}.
Variable runner : Operator.Runner S.

(** X5: for the same blocks and the same answer of the runner, [get]
    returns the first row of what [getAll] returns, and none where
    [getAll] returns the empty list; both leave the same state and throw
    the same error.  One row that is not in an array counts as a list of
    one row. *)
Theorem operator_get_is_head_of_getAll (blocks : list Block) (s : S) :
  Operator.get runner blocks s
  = (match (Operator.getAll runner blocks s).1 with
     | Ok rows => Ok (head rows)
     | Throw e => Throw e
     end,
     (Operator.getAll runner blocks s).2).
Proof.
  unfold Operator.get, Operator.getAll, bind, ret.
  destruct (Operator.runner_get runner _ _ s) as [[[|rows|row]|e] s'];
    reflexivity.
Qed.

End OperatorFacts.

(** ** More on the adapters *)

Section RowFacts.
Import Query.

Lemma prop_assign_eq (o : Values) k v : prop (Db.assign o k v) k = Some v.
Proof.
  induction o as [|[k' v'] o IH]; simpl.
  - by rewrite decide_True.
  - destruct (decide (k' = k)) as [->|Hne]; simpl.
    + by rewrite decide_True.
    + by rewrite decide_False.
Qed.

Lemma prop_assign_ne (o : Values) k k' v :
  k ≠ k' → prop (Db.assign o k v) k' = prop o k'.
Proof.
  intros Hne. induction o as [|[k0 v0] o IH]; simpl.
  - by rewrite decide_False.
  - destruct (decide (k0 = k)) as [->|Hne0]; simpl.
    + by rewrite !decide_False.
    + by rewrite IH.
Qed.

(** Spreading properties over an object leaves the others alone. *)
Lemma prop_spread_other (o extra : Values) k :
  k ∉ extra.*1 → prop (Db.spread o extra) k = prop o k.
Proof.
  unfold Db.spread. revert o.
  induction extra as [|[k' v'] extra IH]; intros o Hk; [done|].
  rewrite fmap_cons in Hk. apply not_elem_of_cons in Hk as [Hne Hk].
  simpl. rewrite IH by done. apply prop_assign_ne. by intros ->.
Qed.

Lemma find_app_new {A} (f : A → bool) (l : list A) (x : A) :
  existsb f l = false →
  List.find f (l ++ [x]) = if f x then Some x else None.
Proof.
  induction l as [|y l IH]; simpl; [done|].
  intros Hex. apply orb_false_iff in Hex as [Hy Hl].
  rewrite Hy. by apply IH.
Qed.

Lemma find_app_other {A} (f : A → bool) (l : list A) (x : A) :
  f x = false → List.find f (l ++ [x]) = List.find f l.
Proof.
  intros Hx. induction l as [|y l IH]; simpl; [by rewrite Hx|].
  by destruct (f y).
Qed.

(** What a successful insert into the user table did. *)
Lemma insert_user_inr (r : Db.Row) (t t' : Db.Tables) :
  Db.insert Db.user_table r t = inr t' →
  ∃ id, prop r "id" = Some id
        ∧ existsb (Db.has "id" id) (Db.rows t Db.user_table) = false
        ∧ t' = <[Db.user_table := Db.rows t Db.user_table ++ [r]]> t.
Proof.
  unfold Db.insert. intros Hins.
  destruct (prop r "id") as [id|] eqn:Hid; [|done].
  destruct (existsb (Db.has "id" id) (Db.rows t Db.user_table)) eqn:Hex.
  - by destruct id.
  - exists id. change (Db.references_user Db.user_table) with false in Hins.
    destruct id; naive_solver.
Qed.

(** An id that is taken makes the insert fail as a duplicate, and the
    database reports no other violation for the user table. *)
Lemma insert_user_taken (r : Db.Row) (t : Db.Tables) (id : string) :
  prop r "id" = Some (CString id) →
  existsb (Db.has "id" (CString id)) (Db.rows t Db.user_table) = true →
  Db.insert Db.user_table r t
  = inl (Db.DuplicatePrimary Db.user_table (CString id)).
Proof. intros Hid Hex. unfold Db.insert. by rewrite Hid, Hex. Qed.

End RowFacts.

Section MoreMysql2Facts.
Import Eff Query.

(** X6: with the mysql2 adapter, when both rows can be inserted,
    [setUser] with a key returns and the user row and the key row are
    both committed. *)
Theorem mysql2_setUser_inserts_user_and_key
    (userId : string) (attributes key : Values) (s : Mysql2.Server)
    (t1 t2 : Db.Tables) :
  Db.insert Db.user_table (Db.spread [("id", CString userId)] attributes)
            (Mysql2.committed s) = inr t1 →
  Db.insert Db.key_table key t1 = inr t2 →
  (Mysql2.setUser userId attributes (Some key) s).1 = Ok tt
  ∧ Mysql2.committed (Mysql2.setUser userId attributes (Some key) s).2 = t2.
Proof.
  intros Huser Hkey.
  unfold Mysql2.setUser, Mysql2.transaction, Mysql2.operator_run,
    Mysql2.runner_run, Mysql2.pool_query, Mysql2.getConnection,
    Mysql2.beginTransaction, Mysql2.commit, Mysql2.set_connection,
    try_catch, bind, modify, throw, ret.
  simpl. rewrite Huser. simpl. rewrite Hkey. simpl.
  rewrite list_lookup_insert_eq by (rewrite length_app; simpl; lia).
  done.
Qed.

(** X7: every [setUser] with a key takes a connection out of the pool
    and never gives it back, whether it returns or throws: one more
    connection is held afterwards, idle and with nothing pending.
    Without a key no connection is taken. *)
Theorem mysql2_setUser_holds_connection
    (userId : string) (attributes key : Values) (s : Mysql2.Server) :
  Mysql2.connections (Mysql2.setUser userId attributes (Some key) s).2
  = Mysql2.connections s ++ [Mysql2.fresh_connection]
  ∧ Mysql2.connections (Mysql2.setUser userId attributes None s).2
    = Mysql2.connections s.
Proof.
  unfold Mysql2.setUser, Mysql2.transaction, Mysql2.operator_run,
    Mysql2.runner_run, Mysql2.pool_query, Mysql2.getConnection,
    Mysql2.beginTransaction, Mysql2.commit, Mysql2.rollback,
    Mysql2.set_connection, try_catch, bind, modify, throw, ret.
  simpl. split.
  - destruct (Db.insert Db.user_table _ (Mysql2.committed s)) as [v|t1];
      simpl.
    + destruct (Mysql2.is_duplicate_primary _); simpl;
        rewrite list_insert_insert_eq;
        by rewrite insert_app_r_alt, Nat.sub_diag by lia.
    + destruct (Db.insert Db.key_table key t1) as [v|t2]; simpl.
      * destruct (Mysql2.is_duplicate_primary _); simpl;
          rewrite list_insert_insert_eq;
          by rewrite insert_app_r_alt, Nat.sub_diag by lia.
      * rewrite list_lookup_insert_eq by (rewrite length_app; simpl; lia).
        simpl. rewrite list_insert_insert_eq.
        by rewrite insert_app_r_alt, Nat.sub_diag by lia.
  - destruct (Db.insert Db.user_table _ (Mysql2.committed s)) as [v|t1];
      simpl; [|done].
    by destruct (Mysql2.is_duplicate_primary _).
Qed.

End MoreMysql2Facts.

Section MoreAdapterFacts.
Import Eff Query.

Lemma user_row_id (userId : string) (attributes : Values) :
  "id" ∉ attributes.*1 →
  prop (Db.spread [("id", CString userId)] attributes) "id"
  = Some (CString userId).
Proof.
  intros Hid. by rewrite prop_spread_other.
Qed.

(** X8: registering, without a key, a user id that is already taken.
    The mysql2 adapter reports it as AUTH_DUPLICATE_KEY_ID, although no
    key is involved; the Prisma adapter, which translates only when a
    key is given, throws the error of the client as it is.  Neither
    changes a table. *)
Theorem setUser_without_key_taken_id
    (userId : string) (attributes : Values)
    (s : Mysql2.Server) (t : Db.Tables) :
  "id" ∉ attributes.*1 →
  existsb (Db.has "id" (CString userId))
          (Db.rows (Mysql2.committed s) Db.user_table) = true →
  existsb (Db.has "id" (CString userId)) (Db.rows t Db.user_table) = true →
  Mysql2.setUser userId attributes None s
  = (Throw (LuciaError AUTH_DUPLICATE_KEY_ID), s)
  ∧ Prisma.setUser userId attributes None t
    = (Throw (DriverError
                (Prisma.prismaError
                   (Db.DuplicatePrimary Db.user_table (CString userId)))),
       t).
Proof.
  intros Hid Hs Ht.
  pose proof (user_row_id userId attributes Hid) as Hrow.
  split.
  - unfold Mysql2.setUser, Mysql2.operator_run, Mysql2.runner_run,
      Mysql2.pool_query, try_catch, throw.
    simpl. rewrite (insert_user_taken _ _ userId Hrow Hs).
    by rewrite (proj2 (mysql_duplicate_signature _ _)).
  - unfold Prisma.setUser, Prisma.create, bind.
    by rewrite (insert_user_taken _ _ userId Hrow Ht).
Qed.

(** X9: a user stored by the Prisma adapter is the user it returns.
    After a [setUser] without key that went through, [getUser] of that
    id gives the row [setUser] returned, with the id and without a
    change to any other user. *)
Theorem prisma_setUser_getUser
    (userId : string) (attributes : Values) (t t' : Db.Tables)
    (created : option Values) :
  "id" ∉ attributes.*1 →
  Prisma.setUser userId attributes None t = (Ok created, t') →
  created = Some (Db.spread [("id", CString userId)] attributes)
  ∧ Prisma.getUser userId t' = (Ok created, t')
  ∧ ∀ other, other ≠ userId →
      (Prisma.getUser other t').1 = (Prisma.getUser other t).1.
Proof.
  intros Hid Hset.
  pose proof (user_row_id userId attributes Hid) as Hrow.
  unfold Prisma.setUser, Prisma.create, bind, ret in Hset.
  destruct (Db.insert Db.user_table _ t) as [v|t1] eqn:Hins; [done|].
  injection Hset as <- <-.
  apply insert_user_inr in Hins as (id & Hrow' & Hfree & ->).
  rewrite Hrow in Hrow'. injection Hrow' as <-.
  split; [done|].
  unfold Prisma.getUser, Prisma.findUnique. rewrite rows_insert_eq.
  split.
  - rewrite find_app_new by done.
    unfold Prisma.by_id, Db.has. by rewrite bool_decide_eq_true_2.
  - intros other Hne. simpl. f_equal. apply find_app_other.
    unfold Prisma.by_id, Db.has. apply bool_decide_eq_false_2.
    rewrite Hrow. congruence.
Qed.

(** How [setKey] of the mysql2 adapter ends when the write it wraps
    throws [e]. *)
Lemma mysql2_setKey_throws {S : Type}
    (coreAdapter_setKey : Values → M S unit) key s e s' :
  coreAdapter_setKey key s = (Throw e, s') →
  (Signature.mysql_foreign_key_on_user_id e →
   Mysql2.setKey coreAdapter_setKey key s
   = (Throw (LuciaError AUTH_INVALID_USER_ID), s'))
  ∧ (¬ Signature.mysql_foreign_key_on_user_id e →
     Signature.mysql_duplicate_primary e →
     Mysql2.setKey coreAdapter_setKey key s
     = (Throw (LuciaError AUTH_DUPLICATE_KEY_ID), s'))
  ∧ (¬ Signature.mysql_foreign_key_on_user_id e →
     ¬ Signature.mysql_duplicate_primary e →
     Mysql2.setKey coreAdapter_setKey key s = (Throw e, s')).
Proof.
  intros Hcore. unfold Mysql2.setKey, try_catch, throw. rewrite Hcore.
  destruct (Mysql2.is_foreign_key_user_id e) eqn:Hfk.
  - apply mysql_foreign_key_test in Hfk. by repeat split.
  - assert (Hnfk : ¬ Signature.mysql_foreign_key_on_user_id e)
      by (rewrite <- mysql_foreign_key_test, Hfk; discriminate).
    destruct (Mysql2.is_duplicate_primary e) eqn:Hdup.
    + apply mysql_duplicate_test in Hdup. by repeat split.
    + assert (Hndup : ¬ Signature.mysql_duplicate_primary e)
        by (rewrite <- mysql_duplicate_test, Hdup; discriminate).
      by repeat split.
Qed.

(** X10: [setKey] of the mysql2 adapter translates constraint
    violations, whatever the write it wraps is.  When that write fails
    with the error MySQL raises for a key whose [user_id] references no
    user (error 1452 naming [user_id]), [setKey] throws
    AUTH_INVALID_USER_ID; when it fails with the error of a key id that
    is already taken ([ER_DUP_ENTRY] on PRIMARY), it throws
    AUTH_DUPLICATE_KEY_ID; an error with neither signature is thrown
    again as it is.  An error that has both signatures counts as the
    foreign key: that test comes first.  The state the write left is
    kept, and a write that succeeds is not touched. *)
Theorem mysql2_setKey_translates
    {S : Type} (coreAdapter_setKey : Values → M S unit)
    (key : Values) (s : S) :
  (∀ table v s',
     coreAdapter_setKey key s
     = (Throw (DriverError
                 (Mysql2.queryError (Db.MissingReference table "user_id" v))),
        s') →
     Mysql2.setKey coreAdapter_setKey key s
     = (Throw (LuciaError AUTH_INVALID_USER_ID), s'))
  ∧ (∀ table id s',
       coreAdapter_setKey key s
       = (Throw (DriverError
                   (Mysql2.queryError (Db.DuplicatePrimary table id))), s') →
       Mysql2.setKey coreAdapter_setKey key s
       = (Throw (LuciaError AUTH_DUPLICATE_KEY_ID), s'))
  ∧ (∀ e s', coreAdapter_setKey key s = (Throw e, s') →
       (Signature.mysql_foreign_key_on_user_id e →
        Mysql2.setKey coreAdapter_setKey key s
        = (Throw (LuciaError AUTH_INVALID_USER_ID), s'))
       ∧ (¬ Signature.mysql_foreign_key_on_user_id e →
          Signature.mysql_duplicate_primary e →
          Mysql2.setKey coreAdapter_setKey key s
          = (Throw (LuciaError AUTH_DUPLICATE_KEY_ID), s'))
       ∧ (¬ Signature.mysql_foreign_key_on_user_id e →
          ¬ Signature.mysql_duplicate_primary e →
          Mysql2.setKey coreAdapter_setKey key s = (Throw e, s')))
  ∧ (∀ s', coreAdapter_setKey key s = (Ok tt, s') →
       Mysql2.setKey coreAdapter_setKey key s = (Ok tt, s')).
Proof.
  split; [|split; [|split]].
  - intros table v s' Hcore.
    apply (mysql2_setKey_throws _ _ _ _ _ Hcore).
    apply mysql_missing_reference_signed.
  - intros table id s' Hcore.
    destruct (mysql_duplicate_signed table id) as [Hnfk Hdup].
    by apply (mysql2_setKey_throws _ _ _ _ _ Hcore).
  - intros e s' Hcore. exact (mysql2_setKey_throws _ _ _ _ _ Hcore).
  - intros s' Hcore. unfold Mysql2.setKey, try_catch. by rewrite Hcore.
Qed.

(** X11: [setKey] of the Prisma adapter, by what the database finds: a
    key for a user that does not exist fails with AUTH_INVALID_USER_ID,
    a key id that is taken fails with AUTH_DUPLICATE_KEY_ID, and in both
    cases no table changes; a key the database accepts is stored. *)
Theorem prisma_setKey_outcomes (key : Values) (t : Db.Tables) :
  (∀ table col v,
     Db.insert Db.key_table key t = inl (Db.MissingReference table col v) →
     Prisma.setKey key t = (Throw (LuciaError AUTH_INVALID_USER_ID), t))
  ∧ (∀ table id,
       Db.insert Db.key_table key t = inl (Db.DuplicatePrimary table id) →
       Prisma.setKey key t = (Throw (LuciaError AUTH_DUPLICATE_KEY_ID), t))
  ∧ (∀ t',
       Db.insert Db.key_table key t = inr t' →
       Prisma.setKey key t = (Ok tt, t')).
Proof.
  unfold Prisma.setKey, Prisma.create, try_catch, bind, ret, throw.
  split; [|split].
  - intros table col v Hins. by rewrite Hins.
  - intros table id Hins. by rewrite Hins.
  - intros t' Hins. by rewrite Hins.
Qed.

End MoreAdapterFacts.

Section MorePrismaFacts.
Import Eff Query.

(** *** Lookups after updates and deletions *)

Lemma find_fmap_stable {A} (f : A → bool) (u : A → A) (l : list A) :
  (∀ x, f (u x) = f x) → List.find f (u <$> l) = u <$> List.find f l.
Proof.
  intros Hf. induction l as [|x l IH]; [done|].
  rewrite fmap_cons. simpl. rewrite Hf. by destruct (f x).
Qed.

Lemma find_filter_keep {A} (f : A → bool) (P : A → Prop)
    `{∀ x, Decision (P x)} (l : list A) :
  (∀ x, f x = true → P x) → List.find f (filter P l) = List.find f l.
Proof.
  intros Hf. induction l as [|x l IH]; [done|].
  rewrite filter_cons. simpl.
  destruct (f x) eqn:Hx.
  - rewrite decide_True by auto. simpl. by rewrite Hx.
  - destruct (decide (P x)); simpl; by rewrite ?Hx.
Qed.

Lemma find_filter_drop {A} (f : A → bool) (P : A → Prop)
    `{∀ x, Decision (P x)} (l : list A) :
  (∀ x, f x = true → ¬ P x) → List.find f (filter P l) = None.
Proof.
  intros Hf. induction l as [|x l IH]; [done|].
  rewrite filter_cons. destruct (decide (P x)) as [HP|HP]; [|done].
  simpl. destruct (f x) eqn:Hx; [|done]. by destruct (Hf x Hx).
Qed.

Lemma filter_filter_keep {A} (P Q : A → Prop)
    `{∀ x, Decision (P x)} `{∀ x, Decision (Q x)} (l : list A) :
  (∀ x, P x → Q x) → filter P (filter Q l) = filter P l.
Proof.
  intros HPQ. induction l as [|x l IH]; [done|].
  rewrite !filter_cons.
  destruct (decide (Q x)) as [HQ|HQ].
  - rewrite filter_cons. destruct (decide (P x)); by rewrite IH.
  - rewrite decide_False by auto. exact IH.
Qed.

Lemma filter_filter_drop {A} (P Q : A → Prop)
    `{∀ x, Decision (P x)} `{∀ x, Decision (Q x)} (l : list A) :
  (∀ x, P x → ¬ Q x) → filter P (filter Q l) = [].
Proof.
  intros HPQ. induction l as [|x l IH]; [done|].
  rewrite filter_cons. destruct (decide (Q x)) as [HQ|HQ]; [|done].
  rewrite filter_cons, decide_False; [done|]. intros HP. by apply (HPQ x).
Qed.

Lemma by_id_assign (id : string) (x : Values) (col : string) v :
  col ≠ "id" →
  Prisma.by_id id (Db.assign x col v) = Prisma.by_id id x.
Proof.
  intros Hcol. unfold Prisma.by_id, Db.has.
  by rewrite prop_assign_ne.
Qed.

Lemma by_id_distinct (id other : string) (x : Values) :
  other ≠ id → Prisma.by_id other x = true → Prisma.by_id id x = false.
Proof.
  unfold Prisma.by_id, Db.has. intros Hne Hother.
  apply bool_decide_eq_true in Hother. apply bool_decide_eq_false_2.
  rewrite Hother. congruence.
Qed.

Lemma matches_id (id : string) (x : Values) :
  Db.matches [("id", CString id)] x = Prisma.by_id id x.
Proof. unfold Db.matches. simpl. apply andb_true_r. Qed.

Context {Key Session : Type}.
Variable transformDatabaseKey : Values → Key.
Variable transformDatabaseSession : Values → Session.

(** X12: [updateKeyPassword].  For a key id that is not stored it fails
    with AUTH_INVALID_KEY_ID and changes nothing.  For a stored key it
    returns the key with the new hashed password and every other column
    as before; [getKey] then reads that key, and reads any other key as
    before. *)
Theorem prisma_updateKeyPassword
    (keyId : string) (hashedPassword : ColumnValue) (t : Db.Tables) :
  (List.find (Prisma.by_id keyId) (Db.rows t Db.key_table) = None →
   Prisma.updateKeyPassword keyId hashedPassword t
   = (Throw (LuciaError AUTH_INVALID_KEY_ID), t))
  ∧ (∀ k,
       List.find (Prisma.by_id keyId) (Db.rows t Db.key_table) = Some k →
       ∃ k' t',
         Prisma.updateKeyPassword keyId hashedPassword t = (Ok k', t')
         ∧ prop k' "hashed_password" = Some hashedPassword
         ∧ (∀ col, col ≠ "hashed_password" → prop k' col = prop k col)
         ∧ Prisma.getKey transformDatabaseKey keyId t'
           = (Ok (Some (transformDatabaseKey k')), t')
         ∧ ∀ other, other ≠ keyId →
             (Prisma.getKey transformDatabaseKey other t').1
             = (Prisma.getKey transformDatabaseKey other t).1).
Proof.
  unfold Prisma.updateKeyPassword, Prisma.update, try_catch, throw.
  split.
  - intros Hnone. by rewrite Hnone.
  - intros k Hk. rewrite Hk. do 2 eexists. split; [reflexivity|].
    unfold Db.spread. simpl.
    split; [apply prop_assign_eq|].
    split; [intros col Hcol; by apply prop_assign_ne|].
    unfold Prisma.getKey, Prisma.findUnique, bind, ret.
    rewrite rows_insert_eq.
    split.
    + rewrite find_fmap_stable.
      * rewrite Hk. simpl.
        apply List.find_some in Hk as [_ Hid]. by rewrite Hid.
      * intros x. destruct (Prisma.by_id keyId x) eqn:Hx; [|done].
        by rewrite by_id_assign.
    + intros other Hne. rewrite find_fmap_stable.
      * destruct (List.find (Prisma.by_id other) (Db.rows t Db.key_table))
          as [x|] eqn:Hx; [|done].
        simpl. apply List.find_some in Hx as [_ Hx].
        by rewrite (by_id_distinct keyId other x Hne Hx).
      * intros x. destruct (Prisma.by_id keyId x); [|done].
        by rewrite by_id_assign.
Qed.


(** X14: [deleteSession] is not idempotent: for a session id that is not
    stored it throws the error of the client ("record not found"), not
    a domain error, and changes nothing.  For a stored session it
    removes it: [getSession] then finds nothing under that id and finds
    every other session as before. *)
Theorem prisma_deleteSession (sessionId : string) (t : Db.Tables) :
  (List.find (Prisma.by_id sessionId) (Db.rows t Db.session_table) = None →
   Prisma.deleteSession sessionId t
   = (Throw (DriverError
               (Prisma.recordNotFound "Record to delete does not exist.")),
      t))
  ∧ (∀ r,
       List.find (Prisma.by_id sessionId) (Db.rows t Db.session_table)
       = Some r →
       (Prisma.deleteSession sessionId t).1 = Ok tt
       ∧ (Prisma.getSession transformDatabaseSession sessionId
            (Prisma.deleteSession sessionId t).2).1 = Ok None
       ∧ ∀ other, other ≠ sessionId →
           (Prisma.getSession transformDatabaseSession other
              (Prisma.deleteSession sessionId t).2).1
           = (Prisma.getSession transformDatabaseSession other t).1).
Proof.
  unfold Prisma.deleteSession, Prisma.delete, bind, ret.
  split.
  - intros Hnone. by rewrite Hnone.
  - intros r Hr. rewrite Hr. simpl. split; [done|].
    unfold Prisma.getSession, Prisma.findUnique, bind, ret, Db.delete_where.
    rewrite rows_insert_eq. split.
    + rewrite find_filter_drop; [done|].
      intros x Hx. rewrite matches_id, Hx. discriminate.
    + intros other Hne.
      rewrite find_filter_keep;
        [by destruct (List.find (Prisma.by_id other) _)|].
      intros x Hx. rewrite matches_id.
      exact (by_id_distinct sessionId other x Hne Hx).
Qed.

Lemma matches_user_id (uid : string) (x : Values) :
  Db.matches [("user_id", CString uid)] x = true
  ↔ prop x "user_id" = Some (CString uid).
Proof.
  unfold Db.matches, Db.has. simpl.
  rewrite andb_true_r. apply bool_decide_eq_true.
Qed.

Lemma deleteMany_by_user (table : string) (uid : string) (t t' : Db.Tables) :
  Prisma.deleteMany table [("user_id", CString uid)] t = (Ok tt, t') →
  (Prisma.findMany table [("user_id", CString uid)] t').1 = Ok []
  ∧ (∀ other, other ≠ uid →
       (Prisma.findMany table [("user_id", CString other)] t').1
       = (Prisma.findMany table [("user_id", CString other)] t).1)
  ∧ (∀ other, other ≠ table → Db.rows t' other = Db.rows t other)
  ∧ (∀ t'', Prisma.deleteMany table [("user_id", CString uid)] t'
            = (Ok tt, t'') → t'' = t').
Proof.
  unfold Prisma.deleteMany, Prisma.findMany, modify, Db.delete_where.
  intros Hcall. injection Hcall as <-. simpl.
  rewrite rows_insert_eq. split; [|split; [|split]].
  - f_equal. apply filter_filter_drop. intros x Hx. by rewrite Hx.
  - intros other Hne. f_equal. apply filter_filter_keep.
    intros x Hx. apply matches_user_id in Hx.
    apply not_true_is_false. intros Hy. apply matches_user_id in Hy.
    congruence.
  - intros other Hne. by apply rows_insert_ne.
  - intros t'' Hcall. injection Hcall as <-.
    rewrite insert_insert_eq. f_equal. by apply filter_filter_keep.
Qed.

(** X15: what a call of [deleteKeysByUserId] or of
    [deleteSessionsByUserId] that returns has done.  The user has no
    key (primary or not), respectively no session, left; the keys and
    sessions of every other user are as before; no other table has
    changed; and a second call that returns changes nothing. *)
Theorem prisma_delete_by_user (userId : string) (t t' : Db.Tables) :
  (Prisma.deleteKeysByUserId userId t = (Ok tt, t') →
   (Prisma.getKeysByUserId transformDatabaseKey userId t').1 = Ok []
   ∧ (∀ other, other ≠ userId →
        (Prisma.getKeysByUserId transformDatabaseKey other t').1
        = (Prisma.getKeysByUserId transformDatabaseKey other t).1)
   ∧ (∀ table, table ≠ Db.key_table → Db.rows t' table = Db.rows t table)
   ∧ (∀ t'', Prisma.deleteKeysByUserId userId t' = (Ok tt, t'') → t'' = t'))
  ∧ (Prisma.deleteSessionsByUserId userId t = (Ok tt, t') →
     (Prisma.getSessionsByUserId transformDatabaseSession userId t').1 = Ok []
     ∧ (∀ other, other ≠ userId →
          (Prisma.getSessionsByUserId transformDatabaseSession other t').1
          = (Prisma.getSessionsByUserId transformDatabaseSession other t).1)
     ∧ (∀ table, table ≠ Db.session_table →
          Db.rows t' table = Db.rows t table)
     ∧ (∀ t'', Prisma.deleteSessionsByUserId userId t' = (Ok tt, t'') →
               t'' = t')).
Proof.
  unfold Prisma.deleteKeysByUserId, Prisma.deleteSessionsByUserId,
    Prisma.getKeysByUserId, Prisma.getSessionsByUserId.
  split; intros Hcall.
  - destruct (deleteMany_by_user Db.key_table userId t t' Hcall)
      as (H1 & H2 & H3 & H4).
    split; [|split; [|split; [exact H3|exact H4]]].
    + unfold bind, ret. unfold Prisma.findMany in *. simpl in *.
      injection H1 as ->. done.
    + intros other Hne. specialize (H2 other Hne).
      unfold bind, ret. unfold Prisma.findMany in *. simpl in *.
      injection H2 as ->. done.
  - destruct (deleteMany_by_user Db.session_table userId t t' Hcall)
      as (H1 & H2 & H3 & H4).
    split; [|split; [|split; [exact H3|exact H4]]].
    + unfold bind, ret. unfold Prisma.findMany in *. simpl in *.
      injection H1 as ->. done.
    + intros other Hne. specialize (H2 other Hne).
      unfold bind, ret. unfold Prisma.findMany in *. simpl in *.
      injection H2 as ->. done.
Qed.

End MorePrismaFacts.

(** ** More on the request validator *)

Section MoreRequestFacts.
Import Eff Request.
Context {Store Cookie : Type}.
Variable auth : Auth Store Cookie.
Variable utils : Utils.

(** X16: the origin check accepts only what [isAllowedOrigin] accepts.
    When it returns true, the Origin header is present and not empty,
    and [isAllowedOrigin] said yes for that origin and a host that is
    the configured host, or, the configured host being [null], the host
    of the request URL or, without a URL, the value of the host
    header. *)
Theorem isValidRequestOrigin_sound
    (rq : LuciaRequest) (config : CSRFProtectionConfiguration) :
  isValidRequestOrigin utils rq config = true →
  ∃ origin h,
    headers_get (headers rq) "Origin" = Some origin
    ∧ origin ≠ EmptyString
    ∧ isAllowedOrigin utils origin h
        (default (SubDomains []) (allowedSubDomains config)) = true
    ∧ (host config = JS.value h
       ∨ (host config = JS.null
          ∧ ((∃ u parsed, url rq = Some u
                          ∧ safeParseUrl utils u = Some parsed
                          ∧ url_host parsed = h)
             ∨ (url rq = None
                ∧ headers_get (headers rq) (default "Host" (hostHeader config))
                  = Some h)))).
Proof.
  unfold isValidRequestOrigin. intros Hvalid.
  destruct (headers_get (headers rq) "Origin") as [[|c origin]|] eqn:Horigin;
    simpl in Hvalid; try discriminate.
  exists (String c origin).
  destruct (host config) as [| |h] eqn:Hhost; simpl in Hvalid;
    try discriminate.
  - destruct (url rq) as [u|] eqn:Hurl.
    + destruct (safeParseUrl utils u) as [parsed|] eqn:Hparse;
        simpl in Hvalid; [|discriminate].
      exists (url_host parsed). repeat split; try done.
      right. split; [done|]. left. by exists u, parsed.
    + destruct (headers_get (headers rq) (default "Host" (hostHeader config)))
        as [h|] eqn:Hh; [|discriminate].
      exists h. repeat split; try done. right. split; [done|]. by right.
  - exists h. repeat split; try done. by left.
Qed.

(** X17: [setSession] always ends with the given session as the stored
    one.  When its id is the stored id already, nothing happens: no
    cookie, and a cached validation stays.  Otherwise exactly one cookie
    is written, the one of that session (the clearing cookie for
    [null]), and the cached validation is dropped.  Storage is never
    consulted. *)
Theorem setSession_effect
    (session : option Session) (this : AuthRequest) (w : World Store Cookie) :
  storedSessionId (setSession auth session this w).1 = sessionId <$> session
  ∧ (storedSessionId this = sessionId <$> session →
     setSession auth session this w = (this, w))
  ∧ (storedSessionId this ≠ sessionId <$> session →
     setCookieCalls (setSession auth session this w).2
     = setCookieCalls w ++ [createSessionCookie auth session]
     ∧ validatePromise (setSession auth session this w).1 = None)
  ∧ validateSessionCalls (setSession auth session this w).2
    = validateSessionCalls w
  ∧ store (setSession auth session this w).2 = store w.
Proof.
  unfold setSession, setSessionCookie. simpl.
  destruct (decide (storedSessionId this = sessionId <$> session))
    as [Heq|Hne]; simpl.
  - repeat split; try done.
  - repeat split; try done.
Qed.

(** X18: after [setSession] with another session, [validate] validates
    that session, whatever was validated and cached before: the next
    [validate] asks [auth.validateSession] about the new id. *)
Theorem setSession_then_validate
    (session : Session) (this : AuthRequest) (w : World Store Cookie) :
  storedSessionId this ≠ Some (sessionId session) →
  sessionId session ≠ EmptyString →
  validateSessionCalls
    (validate auth (setSession auth (Some session) this w).1
       (setSession auth (Some session) this w).2).2
  = validateSessionCalls w ++ [sessionId session].
Proof.
  intros Hne Hid.
  unfold setSession, setSessionCookie. simpl.
  rewrite !decide_False by done. simpl.
  unfold validate, validate_executor, call_validateSession. simpl.
  destruct (sessionId session) as [|c sid] eqn:Hs; [done|]. simpl.
  destruct (validateSession auth (String c sid) (store w))
    as [[validated|e] st1]; simpl.
  - destruct (fresh validated); simpl; [|done].
    unfold setSessionCookie. simpl. by case_decide.
  - destruct (instanceof_LuciaError e); simpl; done.
Qed.

(** X19: signing out.  After [setSession(null)] on a request that had a
    stored session, [validate] returns none and does not consult
    storage, and the one cookie written is the clearing cookie. *)
Theorem setSession_null_then_validate
    (this : AuthRequest) (w : World Store Cookie) (sid : string) :
  storedSessionId this = Some sid →
  validate auth (setSession auth None this w).1 (setSession auth None this w).2
  = (Returns None,
     {| storedSessionId := None;
        bearerToken := bearerToken this;
        validatePromise := Some (Resolved None);
        validateBearerTokenPromise := validateBearerTokenPromise this |},
     call_setCookie (createSessionCookie auth None) w).
Proof.
  intros Hstored.
  unfold setSession, setSessionCookie. simpl.
  rewrite Hstored. simpl. reflexivity.
Qed.

(** X20: a validation that succeeds.  [validate] returns the session
    after exactly one call of [auth.validateSession].  If the session is
    fresh and its id is not the stored one, the cookie of that session
    is written, once, and its id becomes the stored id; if it is not
    fresh, no cookie is written and the stored id stays. *)
Theorem validate_success
    (this : AuthRequest) (w : World Store Cookie) (sid : string)
    (session : Session) (st1 : Store) :
  validatePromise this = None →
  JS.truthy (storedSessionId this) = Some sid →
  validateSession auth sid (store w) = (Ok session, st1) →
  (validate auth this w).1.1 = Returns (Some session)
  ∧ validateSessionCalls (validate auth this w).2
    = validateSessionCalls w ++ [sid]
  ∧ store (validate auth this w).2 = st1
  ∧ (fresh session = true → sessionId session ≠ sid →
     setCookieCalls (validate auth this w).2
     = setCookieCalls w ++ [createSessionCookie auth (Some session)]
     ∧ storedSessionId (validate auth this w).1.2 = Some (sessionId session))
  ∧ (fresh session = false →
     setCookieCalls (validate auth this w).2 = setCookieCalls w
     ∧ storedSessionId (validate auth this w).1.2 = Some sid).
Proof.
  intros Hnone Hsid Hok.
  pose proof (truthy_Some _ _ Hsid) as Hstored.
  unfold validate, validate_executor, call_validateSession.
  rewrite Hnone, Hsid, Hok.
  destruct (fresh session) eqn:Hfresh.
  - unfold setSessionCookie. rewrite Hstored. simpl.
    destruct (decide (Some sid = Some (sessionId session))) as [Heq|Hne];
      simpl.
    + do 3 (split; [done|]). split; [|done].
      intros _ Hdiff. congruence.
    + do 3 (split; [done|]). split; [|done]. by intros _ _.
  - simpl. do 3 (split; [done|]). split; [done|]. by intros _.
Qed.

(** X21: [validateBearerToken] never writes a cookie and never changes
    the stored session id or the bearer token, whatever the token is
    and however its validation ends. *)
Theorem validateBearerToken_leaves_cookie
    (this : AuthRequest) (w : World Store Cookie) :
  setCookieCalls (validateBearerToken auth this w).2 = setCookieCalls w
  ∧ storedSessionId (validateBearerToken auth this w).1.2
    = storedSessionId this
  ∧ bearerToken (validateBearerToken auth this w).1.2 = bearerToken this.
Proof.
  unfold validateBearerToken, validateBearerToken_executor,
    call_validateSession.
  destruct (validateBearerTokenPromise this); [done|].
  destruct (JS.truthy (bearerToken this)) as [token|]; [|done].
  destruct (validateSession auth token (store w)) as [[session|e] st1];
    [done|].
  by destruct (instanceof_LuciaError e).
Qed.

(** X22: bearer tokens are outside the origin check.  What
    [validateBearerToken] returns and does on a newly constructed
    request object is the same under every CSRF setting, with or
    without an Origin header. *)
Theorem validateBearerToken_ignores_csrf
    (requestContext : RequestContext) (csrf1 csrf2 : CsrfProtection)
    (w : World Store Cookie) :
  (validateBearerToken auth
     (constructor auth utils requestContext csrf1) w).1.1
  = (validateBearerToken auth
       (constructor auth utils requestContext csrf2) w).1.1
  ∧ (validateBearerToken auth
       (constructor auth utils requestContext csrf1) w).2
    = (validateBearerToken auth
         (constructor auth utils requestContext csrf2) w).2.
Proof.
  unfold validateBearerToken, validateBearerToken_executor. simpl.
  destruct (JS.truthy _) as [token|]; [|done].
  destruct (call_validateSession auth token w) as [[session|e] w1]; [done|].
  by destruct (instanceof_LuciaError e).
Qed.

(** X23: the session cookie of the request context, when there is one,
    is used and the Cookie header is not read, even when that cookie is
    the empty string; with the empty string [validate] returns none
    without consulting storage, whatever the Cookie header holds. *)
Theorem context_cookie_shadows_header
    (requestContext : RequestContext) (csrfProtection : CsrfProtection)
    (c : string) (w : World Store Cookie) :
  sessionCookie requestContext = Some c →
  (csrfProtection = CsrfBoolean false
   ∨ isValidRequestOrigin utils (request requestContext)
       match csrfProtection with
       | CsrfObject config => config
       | CsrfBoolean _ => empty_configuration
       end = true) →
  storedSessionId (constructor auth utils requestContext csrfProtection)
  = Some c
  ∧ (c = EmptyString →
     (validate auth (constructor auth utils requestContext csrfProtection)
        w).1.1 = Returns None
     ∧ (validate auth (constructor auth utils requestContext csrfProtection)
          w).2 = w).
Proof.
  intros Hcookie Hpass.
  assert (Hstored :
    storedSessionId (constructor auth utils requestContext csrfProtection)
    = Some c).
  { unfold constructor. simpl. rewrite Hcookie.
    destruct Hpass as [-> | Hvalid]; [done|].
    rewrite Hvalid. by rewrite orb_true_r. }
  split; [exact Hstored|]. intros ->.
  unfold validate, validate_executor.
  change (validatePromise
            (constructor auth utils requestContext csrfProtection))
    with (@None (Promise (option Session))).
  rewrite Hstored. simpl. by destruct w.
Qed.

End MoreRequestFacts.

(** ** The Knex adapter *)

Section KnexFacts.
Import Eff Query.
Context {Json DatabaseUser DatabaseSession : Type}.
Variable TO_JSON : Values → Json.
Variable transformIntoDatabaseUser : Json → DatabaseUser.
Variable transformIntoDatabaseSession : Json → DatabaseSession.
Variable tables : Knex.TableNames.

Local Abbreviation getSessionAndUser :=
  (Knex.getSessionAndUser TO_JSON transformIntoDatabaseUser
     transformIntoDatabaseSession tables).

Lemma sql_eq_same_value (a b : option ColumnValue) :
  Knex.sql_eq a b = true ↔ Knex.same_value a b.
Proof.
  unfold Knex.same_value. split.
  - intros Heq. destruct a as [x|], b as [y|];
      try (by destruct x); try (by destruct y); try discriminate Heq.
    assert (Hx : x ≠ CNull) by (intros ->; discriminate Heq).
    assert (Hxy : x = y).
    { destruct x, y; try done; by apply bool_decide_eq_true in Heq. }
    subst y. by exists x.
  - intros (v & Hv & -> & ->). destruct v; try done;
      by apply bool_decide_eq_true.
Qed.

(** X24: [getSessionAndUser] writes nothing and has no handler of its
    own: an unreachable database makes it throw the error of the
    connection, and a missing table the error of the database.  When
    the query goes through, it returns a session and a user together or
    neither.  It returns neither exactly when no stored session row with
    the id has a user row with its [userId], be it that no session has
    the id or that the user is gone.  When it returns both, they are
    the transforms of what [TO_JSON] made of a stored session row with
    the id asked for and of a stored user row with that session's
    [userId]. *)
Theorem knex_getSessionAndUser (sessionId : string) (db : Knex.Database) :
  (getSessionAndUser sessionId db).2 = db
  ∧ (∀ e, Knex.unreachable db = Some e →
       (getSessionAndUser sessionId db).1 = Throw (DriverError e))
  ∧ (Knex.unreachable db = None →
     (Knex.relations db !! Knex.sessions tables = None
      ∨ Knex.relations db !! Knex.users tables = None) →
     ∃ name, (name = Knex.sessions tables ∨ name = Knex.users tables)
       ∧ Knex.relations db !! name = None
       ∧ (getSessionAndUser sessionId db).1
         = Throw (DriverError (Knex.undefined_table name)))
  ∧ (∀ session_rows user_rows,
       Knex.unreachable db = None →
       Knex.relations db !! Knex.sessions tables = Some session_rows →
       Knex.relations db !! Knex.users tables = Some user_rows →
       ((getSessionAndUser sessionId db).1 = Ok (None, None)
        ∧ ∀ s u, s ∈ session_rows → u ∈ user_rows →
                 prop s "sessionId" = Some (CString sessionId) →
                 ¬ Knex.same_value (prop s "userId") (prop u "userId"))
       ∨ ∃ s u,
           (getSessionAndUser sessionId db).1
           = Ok (Some (transformIntoDatabaseSession (TO_JSON s)),
                 Some (transformIntoDatabaseUser (TO_JSON u)))
           ∧ s ∈ session_rows ∧ u ∈ user_rows
           ∧ prop s "sessionId" = Some (CString sessionId)
           ∧ Knex.same_value (prop s "userId") (prop u "userId")).
Proof.
  unfold Knex.getSessionAndUser, Knex.select_user_and_session, bind, ret,
    Knex.relation.
  split; [|split; [|split]].
  - destruct (Knex.unreachable db); [done|].
    destruct (Knex.relations db !! Knex.sessions tables); [|done].
    destruct (Knex.relations db !! Knex.users tables); [|done].
    by destruct (_ ≫= _).
  - intros e ->. done.
  - intros -> Hmissing.
    destruct (Knex.relations db !! Knex.sessions tables) eqn:Hs.
    + destruct Hmissing as [Hmissing|Hmissing]; [done|].
      exists (Knex.users tables). rewrite Hmissing. by split; [right|].
    + exists (Knex.sessions tables). by split; [left|].
  - intros session_rows user_rows -> -> ->.
    match goal with
    | |- context [match ?l with [] => _ | _ :: _ => _ end] =>
        destruct l as [|result rest] eqn:Hselected
    end.
    + left. split; [done|]. intros s u Hs Hu Hid Hsame.
      assert (Hin : {| Knex.user := TO_JSON u; Knex.session := TO_JSON s |}
                    ∈ @nil (Knex.Selected Json)); [|by inversion Hin].
      rewrite <- Hselected.
      apply list_elem_of_bind. exists s. split.
      * apply list_elem_of_bind. exists u. split; [apply list_elem_of_here|].
        apply list_elem_of_filter. split; [|done].
        by apply sql_eq_same_value.
      * apply list_elem_of_filter. split; [|done].
        rewrite Hid. simpl. by apply bool_decide_eq_true.
    + right.
      assert (Hin : result ∈ result :: rest) by apply list_elem_of_here.
      rewrite <- Hselected in Hin.
      apply list_elem_of_bind in Hin as (s & Hin & Hs).
      apply list_elem_of_bind in Hin as (u & Hin & Hu).
      apply list_elem_of_singleton in Hin. subst result.
      apply list_elem_of_filter in Hs as [Hsid Hs].
      apply list_elem_of_filter in Hu as [Huid Hu].
      apply sql_eq_same_value in Hsid as (v & _ & Hv & Hid).
      injection Hid as <-.
      apply sql_eq_same_value in Huid.
      exists s, u. done.
Qed.

End KnexFacts.

(** ** The further statements at concrete inputs *)

Lemma resolveQueryBlocks_statement_ignores_values_witness :
  QueryShape.blank <$> Examples.update_password
  = QueryShape.blank <$> MoreExamples.update_password_other
  ∧ Query.statementText (Query.resolveQueryBlocks Examples.update_password)
    = Query.statementText
        (Query.resolveQueryBlocks MoreExamples.update_password_other).
Proof.
  assert (Hshape :
    QueryShape.blank <$> Examples.update_password
    = QueryShape.blank <$> MoreExamples.update_password_other)
    by reflexivity.
  split; [exact Hshape|].
  exact (proj2 (resolveQueryBlocks_statement_ignores_values _ _ Hshape)).
Defined.

Lemma mysql2_setUser_inserts_user_and_key_witness :
  Db.insert Db.user_table
    (Db.spread [("id", Query.CString "u1")] Examples.bob_attributes)
    (Mysql2.committed Examples.server) = inr Examples.tables_with_bob
  ∧ Db.insert Db.key_table MoreExamples.bob_own_key Examples.tables_with_bob
    = inr MoreExamples.tables_with_bob_and_key
  ∧ Mysql2.committed
      (Mysql2.setUser "u1" Examples.bob_attributes
         (Some MoreExamples.bob_own_key) Examples.server).2
    = MoreExamples.tables_with_bob_and_key.
Proof.
  assert (Huser :
    Db.insert Db.user_table
      (Db.spread [("id", Query.CString "u1")] Examples.bob_attributes)
      (Mysql2.committed Examples.server) = inr Examples.tables_with_bob)
    by (vm_compute; reflexivity).
  assert (Hkey :
    Db.insert Db.key_table MoreExamples.bob_own_key Examples.tables_with_bob
    = inr MoreExamples.tables_with_bob_and_key)
    by (vm_compute; reflexivity).
  split; [exact Huser|]. split; [exact Hkey|].
  exact (proj2 (mysql2_setUser_inserts_user_and_key "u1"
                  Examples.bob_attributes MoreExamples.bob_own_key
                  Examples.server _ _ Huser Hkey)).
Defined.

Lemma setUser_without_key_taken_id_witness :
  ("id" ∉ (Examples.bob_attributes).*1)
  ∧ existsb (Db.has "id" (Query.CString "u0"))
      (Db.rows (Mysql2.committed Examples.server) Db.user_table) = true
  ∧ Mysql2.setUser "u0" Examples.bob_attributes None Examples.server
    = (Eff.Throw (Eff.LuciaError Eff.AUTH_DUPLICATE_KEY_ID), Examples.server).
Proof.
  assert (Hid : "id" ∉ (Examples.bob_attributes).*1)
    by (intros Hin; apply list_elem_of_singleton in Hin; discriminate).
  assert (Htaken :
    existsb (Db.has "id" (Query.CString "u0"))
      (Db.rows (Mysql2.committed Examples.server) Db.user_table) = true)
    by reflexivity.
  split; [exact Hid|]. split; [exact Htaken|].
  exact (proj1 (setUser_without_key_taken_id "u0" Examples.bob_attributes
                  Examples.server Examples.tables Hid Htaken Htaken)).
Defined.

Lemma prisma_setUser_getUser_witness :
  ("id" ∉ (Examples.bob_attributes).*1)
  ∧ Prisma.setUser "u1" Examples.bob_attributes None Examples.tables
    = (Eff.Ok (Some Examples.bob), Examples.tables_with_bob)
  ∧ Prisma.getUser "u1" Examples.tables_with_bob
    = (Eff.Ok (Some Examples.bob), Examples.tables_with_bob).
Proof.
  assert (Hid : "id" ∉ (Examples.bob_attributes).*1)
    by (intros Hin; apply list_elem_of_singleton in Hin; discriminate).
  assert (Hset :
    Prisma.setUser "u1" Examples.bob_attributes None Examples.tables
    = (Eff.Ok (Some Examples.bob), Examples.tables_with_bob))
    by (vm_compute; reflexivity).
  split; [exact Hid|]. split; [exact Hset|].
  exact (proj1 (proj2 (prisma_setUser_getUser "u1" Examples.bob_attributes
                         Examples.tables Examples.tables_with_bob
                         (Some Examples.bob) Hid Hset))).
Defined.

Lemma mysql2_setKey_translates_witness :
  Mysql2.setKey
    (fun key => Mysql2.operator_run [Query.INSERT_INTO Db.key_table key])
    MoreExamples.orphan_key Examples.server
  = (Eff.Throw (Eff.LuciaError Eff.AUTH_INVALID_USER_ID), Examples.server)
  ∧ Mysql2.setKey
      (fun key => Mysql2.operator_run [Query.INSERT_INTO Db.key_table key])
      Examples.ann_key Examples.server
    = (Eff.Throw (Eff.LuciaError Eff.AUTH_DUPLICATE_KEY_ID), Examples.server)
  ∧ Mysql2.setKey (fun _ => Eff.throw MoreExamples.refused)
      Examples.ann_key Examples.server
    = (Eff.Throw MoreExamples.refused, Examples.server)
  ∧ Mysql2.setKey
      (fun key => Mysql2.operator_run [Query.INSERT_INTO Db.key_table key])
      MoreExamples.bob_own_key
      {| Mysql2.committed := Examples.tables_with_bob;
         Mysql2.connections := [] |}
    = (Eff.Ok tt,
       {| Mysql2.committed := MoreExamples.tables_with_bob_and_key;
          Mysql2.connections := [] |}).
Proof.
  pose (core := fun key : Query.Values =>
                  Mysql2.operator_run [Query.INSERT_INTO Db.key_table key]).
  pose (lost := fun _ : Query.Values =>
                  Eff.throw (S := Mysql2.Server) (A := unit)
                    MoreExamples.refused).
  split; [|split; [|split]].
  - apply (proj1
             (mysql2_setKey_translates core MoreExamples.orphan_key
                Examples.server)
             Db.key_table (Query.CString "nobody")).
    vm_compute; reflexivity.
  - apply (proj1 (proj2
             (mysql2_setKey_translates core Examples.ann_key
                Examples.server))
             Db.key_table (Query.CString "email:ann@example.com")).
    vm_compute; reflexivity.
  - apply (proj1 (proj2 (proj2
             (mysql2_setKey_translates lost Examples.ann_key
                Examples.server)))
             MoreExamples.refused Examples.server eq_refl).
    + intros [Herrno _]. discriminate Herrno.
    + intros [Hcode _]. discriminate Hcode.
  - apply (proj2 (proj2 (proj2
             (mysql2_setKey_translates core MoreExamples.bob_own_key
                {| Mysql2.committed := Examples.tables_with_bob;
                   Mysql2.connections := [] |}))));
    vm_compute; reflexivity.
Defined.

Lemma prisma_setKey_outcomes_witness :
  Db.insert Db.key_table MoreExamples.orphan_key Examples.tables
  = inl (Db.MissingReference Db.key_table "user_id" (Query.CString "nobody"))
  ∧ Prisma.setKey MoreExamples.orphan_key Examples.tables
    = (Eff.Throw (Eff.LuciaError Eff.AUTH_INVALID_USER_ID), Examples.tables).
Proof.
  assert (Hins :
    Db.insert Db.key_table MoreExamples.orphan_key Examples.tables
    = inl (Db.MissingReference Db.key_table "user_id"
             (Query.CString "nobody")))
    by (vm_compute; reflexivity).
  split; [exact Hins|].
  exact (proj1 (prisma_setKey_outcomes MoreExamples.orphan_key
                  Examples.tables) _ _ _ Hins).
Defined.

Lemma prisma_updateKeyPassword_witness :
  List.find (Prisma.by_id "nobody") (Db.rows Examples.tables Db.key_table)
  = None
  ∧ Prisma.updateKeyPassword "nobody" (Query.CString "s2:new") Examples.tables
    = (Eff.Throw (Eff.LuciaError Eff.AUTH_INVALID_KEY_ID), Examples.tables).
Proof.
  assert (Hnone :
    List.find (Prisma.by_id "nobody") (Db.rows Examples.tables Db.key_table)
    = None) by reflexivity.
  split; [exact Hnone|].
  exact (proj1 (prisma_updateKeyPassword (fun k : Query.Values => k)
                  "nobody" (Query.CString "s2:new") Examples.tables) Hnone).
Defined.

(** The password of a stored key, updated and read back. *)
Example prisma_updateKeyPassword_getKey :
  (Prisma.getKey (fun k : Query.Values => k) "github:1"
     (Prisma.updateKeyPassword "github:1" (Query.CString "s2:new")
        Examples.tables).2).1
  = Eff.Ok
      (Some [("id", Query.CString "github:1");
             ("user_id", Query.CString "u0");
             ("primary_key", Query.CBoolean false);
             ("hashed_password", Query.CString "s2:new")]).
Proof. vm_compute. reflexivity. Qed.


Lemma prisma_deleteSession_witness :
  List.find (Prisma.by_id "sz")
    (Db.rows MoreExamples.tables_with_sessions Db.session_table) = None
  ∧ Prisma.deleteSession "sz" MoreExamples.tables_with_sessions
    = (Eff.Throw
         (Eff.DriverError
            (Prisma.recordNotFound "Record to delete does not exist.")),
       MoreExamples.tables_with_sessions).
Proof.
  assert (Hnone :
    List.find (Prisma.by_id "sz")
      (Db.rows MoreExamples.tables_with_sessions Db.session_table) = None)
    by reflexivity.
  split; [exact Hnone|].
  exact (proj1 (prisma_deleteSession (fun s : Query.Values => s) "sz"
                  MoreExamples.tables_with_sessions) Hnone).
Defined.

(** A stored session is deleted and the other stays. *)
Example prisma_deleteSession_stored :
  Db.rows (Prisma.deleteSession "sa" MoreExamples.tables_with_sessions).2
    Db.session_table
  = [MoreExamples.session_b].
Proof. vm_compute. reflexivity. Qed.

Lemma prisma_delete_by_user_witness :
  Prisma.deleteKeysByUserId "u0" MoreExamples.tables_with_bob_and_key
  = (Eff.Ok tt,
     <[ Db.key_table := [MoreExamples.bob_own_key] ]>
       MoreExamples.tables_with_bob_and_key)
  ∧ (Prisma.getKeysByUserId (fun k : Query.Values => k) "u0"
       (<[ Db.key_table := [MoreExamples.bob_own_key] ]>
          MoreExamples.tables_with_bob_and_key)).1 = Eff.Ok []
  ∧ (Prisma.getKeysByUserId (fun k : Query.Values => k) "u1"
       (<[ Db.key_table := [MoreExamples.bob_own_key] ]>
          MoreExamples.tables_with_bob_and_key)).1
    = (Prisma.getKeysByUserId (fun k : Query.Values => k) "u1"
         MoreExamples.tables_with_bob_and_key).1
  ∧ Prisma.deleteSessionsByUserId "u0" MoreExamples.tables_with_sessions
    = (Eff.Ok tt,
       <[ Db.session_table := [] ]> MoreExamples.tables_with_sessions)
  ∧ (Prisma.getSessionsByUserId (fun s : Query.Values => s) "u0"
       (<[ Db.session_table := [] ]> MoreExamples.tables_with_sessions)).1
    = Eff.Ok [].
Proof.
  assert (Hne : "u1" ≠ "u0") by discriminate.
  assert (Hkeys :
    Prisma.deleteKeysByUserId "u0" MoreExamples.tables_with_bob_and_key
    = (Eff.Ok tt,
       <[ Db.key_table := [MoreExamples.bob_own_key] ]>
         MoreExamples.tables_with_bob_and_key))
    by reflexivity.
  assert (Hsessions :
    Prisma.deleteSessionsByUserId "u0" MoreExamples.tables_with_sessions
    = (Eff.Ok tt,
       <[ Db.session_table := [] ]> MoreExamples.tables_with_sessions))
    by reflexivity.
  split; [exact Hkeys|]. split; [|split; [|split; [exact Hsessions|]]].
  - exact (proj1 (proj1
             (prisma_delete_by_user (fun k : Query.Values => k)
                (fun s : Query.Values => s) "u0"
                MoreExamples.tables_with_bob_and_key _) Hkeys)).
  - exact (proj1 (proj2 (proj1
             (prisma_delete_by_user (fun k : Query.Values => k)
                (fun s : Query.Values => s) "u0"
                MoreExamples.tables_with_bob_and_key _) Hkeys))
             "u1" Hne).
  - exact (proj1 (proj2
             (prisma_delete_by_user (fun k : Query.Values => k)
                (fun s : Query.Values => s) "u0"
                MoreExamples.tables_with_sessions _) Hsessions)).
Defined.

Lemma isValidRequestOrigin_sound_witness :
  Request.isValidRequestOrigin Examples.lenient_utils
    Examples.same_origin_request MoreExamples.null_host = true
  ∧ ∃ origin h,
      Request.headers_get (Request.headers Examples.same_origin_request)
        "Origin" = Some origin
      ∧ origin ≠ EmptyString
      ∧ Request.isAllowedOrigin Examples.lenient_utils origin h
          (default (Request.SubDomains [])
             (Request.allowedSubDomains MoreExamples.null_host)) = true.
Proof.
  assert (Hvalid :
    Request.isValidRequestOrigin Examples.lenient_utils
      Examples.same_origin_request MoreExamples.null_host = true)
    by reflexivity.
  split; [exact Hvalid|].
  destruct (isValidRequestOrigin_sound Examples.lenient_utils
              Examples.same_origin_request MoreExamples.null_host Hvalid)
    as (origin & h & Horigin & Hnonempty & Hallowed & _).
  by exists origin, h.
Defined.

Lemma setSession_effect_witness :
  Request.storedSessionId Examples.with_cookie
  ≠ Request.sessionId <$> Some MoreExamples.renewed
  ∧ Request.setCookieCalls
      (Request.setSession MoreExamples.renewing_auth
         (Some MoreExamples.renewed) Examples.with_cookie
         Examples.empty_world).2
    = ["s2"].
Proof.
  assert (Hne :
    Request.storedSessionId Examples.with_cookie
    ≠ Request.sessionId <$> Some MoreExamples.renewed) by discriminate.
  split; [exact Hne|].
  exact (proj1 (proj1 (proj2 (proj2
           (setSession_effect MoreExamples.renewing_auth
              (Some MoreExamples.renewed) Examples.with_cookie
              Examples.empty_world))) Hne)).
Defined.

Lemma setSession_then_validate_witness :
  Request.storedSessionId Examples.with_cookie
  ≠ Some (Request.sessionId MoreExamples.renewed)
  ∧ Request.sessionId MoreExamples.renewed ≠ EmptyString
  ∧ Request.validateSessionCalls
      (Request.validate MoreExamples.renewing_auth
         (Request.setSession MoreExamples.renewing_auth
            (Some MoreExamples.renewed) Examples.with_cookie
            Examples.empty_world).1
         (Request.setSession MoreExamples.renewing_auth
            (Some MoreExamples.renewed) Examples.with_cookie
            Examples.empty_world).2).2
    = ["s2"].
Proof.
  assert (Hne :
    Request.storedSessionId Examples.with_cookie
    ≠ Some (Request.sessionId MoreExamples.renewed)) by discriminate.
  assert (Hid : Request.sessionId MoreExamples.renewed ≠ EmptyString)
    by discriminate.
  split; [exact Hne|]. split; [exact Hid|].
  exact (setSession_then_validate MoreExamples.renewing_auth
           MoreExamples.renewed Examples.with_cookie Examples.empty_world
           Hne Hid).
Defined.

Lemma setSession_null_then_validate_witness :
  Request.storedSessionId Examples.with_cookie = Some "s1"
  ∧ (Request.validate MoreExamples.renewing_auth
       (Request.setSession MoreExamples.renewing_auth None
          Examples.with_cookie Examples.empty_world).1
       (Request.setSession MoreExamples.renewing_auth None
          Examples.with_cookie Examples.empty_world).2).1.1
    = Request.Returns None.
Proof.
  split; [reflexivity|].
  by rewrite (setSession_null_then_validate MoreExamples.renewing_auth
                Examples.with_cookie Examples.empty_world "s1" eq_refl).
Defined.

Lemma validate_success_witness :
  Request.validatePromise Examples.with_cookie = None
  ∧ JS.truthy (Request.storedSessionId Examples.with_cookie) = Some "s1"
  ∧ Request.validateSession MoreExamples.renewing_auth "s1"
      (Request.store Examples.empty_world)
    = (Eff.Ok MoreExamples.renewed, tt)
  ∧ (Request.validate MoreExamples.renewing_auth Examples.with_cookie
       Examples.empty_world).1.1
    = Request.Returns (Some MoreExamples.renewed).
Proof.
  split; [reflexivity|]. split; [reflexivity|]. split; [reflexivity|].
  exact (proj1 (validate_success MoreExamples.renewing_auth
                  Examples.with_cookie Examples.empty_world "s1"
                  MoreExamples.renewed tt eq_refl eq_refl eq_refl)).
Defined.

Lemma context_cookie_shadows_header_witness :
  Request.sessionCookie MoreExamples.same_origin_context = Some EmptyString
  ∧ Request.storedSessionId
      (Request.constructor MoreExamples.renewing_auth Examples.lenient_utils
         MoreExamples.same_origin_context (Request.CsrfBoolean false))
    = Some EmptyString.
Proof.
  split; [reflexivity|].
  exact (proj1 (context_cookie_shadows_header MoreExamples.renewing_auth
                  Examples.lenient_utils MoreExamples.same_origin_context
                  (Request.CsrfBoolean false) EmptyString
                  Examples.empty_world eq_refl (or_introl eq_refl))).
Defined.

Lemma knex_getSessionAndUser_witness :
  (Knex.getSessionAndUser MoreExamples.to_json (fun u : Query.Values => u)
     (fun s : Query.Values => s) MoreExamples.knex_names "sa"
     MoreExamples.knex_unreachable).1
  = Eff.Throw (Eff.DriverError MoreExamples.connection_refused)
  ∧ (∃ name,
       (name = "sessions" ∨ name = "users")
       ∧ Knex.relations MoreExamples.knex_without_users !! name = None
       ∧ (Knex.getSessionAndUser MoreExamples.to_json
            (fun u : Query.Values => u) (fun s : Query.Values => s)
            MoreExamples.knex_names "sa" MoreExamples.knex_without_users).1
         = Eff.Throw (Eff.DriverError (Knex.undefined_table name)))
  ∧ (((Knex.getSessionAndUser MoreExamples.to_json
         (fun u : Query.Values => u) (fun s : Query.Values => s)
         MoreExamples.knex_names "sx" MoreExamples.knex_database).1
      = Eff.Ok (None, None)
      ∧ ∀ s u,
          s ∈ Db.rows MoreExamples.knex_tables "sessions" →
          u ∈ Db.rows MoreExamples.knex_tables "users" →
          Query.prop s "sessionId" = Some (Query.CString "sx") →
          ¬ Knex.same_value (Query.prop s "userId") (Query.prop u "userId"))
     ∨ ∃ s u,
         (Knex.getSessionAndUser MoreExamples.to_json
            (fun u : Query.Values => u) (fun s : Query.Values => s)
            MoreExamples.knex_names "sx" MoreExamples.knex_database).1
         = Eff.Ok (Some (MoreExamples.to_json s),
                   Some (MoreExamples.to_json u))
         ∧ s ∈ Db.rows MoreExamples.knex_tables "sessions"
         ∧ u ∈ Db.rows MoreExamples.knex_tables "users"
         ∧ Query.prop s "sessionId" = Some (Query.CString "sx")
         ∧ Knex.same_value (Query.prop s "userId") (Query.prop u "userId")).
Proof.
  split; [|split].
  - exact (proj1 (proj2
             (knex_getSessionAndUser MoreExamples.to_json
                (fun u : Query.Values => u) (fun s : Query.Values => s)
                MoreExamples.knex_names "sa" MoreExamples.knex_unreachable))
             MoreExamples.connection_refused eq_refl).
  - apply (proj1 (proj2 (proj2
             (knex_getSessionAndUser MoreExamples.to_json
                (fun u : Query.Values => u) (fun s : Query.Values => s)
                MoreExamples.knex_names "sa"
                MoreExamples.knex_without_users)))).
    + reflexivity.
    + right. reflexivity.
  - apply (proj2 (proj2 (proj2
             (knex_getSessionAndUser MoreExamples.to_json
                (fun u : Query.Values => u) (fun s : Query.Values => s)
                MoreExamples.knex_names "sx" MoreExamples.knex_database))));
      reflexivity.
Defined.

(** The session whose user is stored is returned with that user, both
    as [TO_JSON] renders them; the session whose user is gone is not
    returned. *)
Example knex_getSessionAndUser_found :
  (Knex.getSessionAndUser MoreExamples.to_json (fun u : Query.Values => u)
     (fun s : Query.Values => s) MoreExamples.knex_names "sa"
     MoreExamples.knex_database).1
  = Eff.Ok
      (Some [("sessionId", Query.CString "sa"); ("userId", Query.CString "u0");
             ("activeExpires", Query.CNumber 1000)],
       Some [("userId", Query.CString "u0"); ("username", Query.CString "ann")])
  ∧ (Knex.getSessionAndUser MoreExamples.to_json (fun u : Query.Values => u)
       (fun s : Query.Values => s) MoreExamples.knex_names "sx"
       MoreExamples.knex_database).1
    = Eff.Ok (None, None).
Proof. split; vm_compute; reflexivity. Qed.

(** [get] and [getAll] on a runner that answers with two rows. *)
Example operator_get_getAll :
  (Operator.get (MoreExamples.constant_runner [Examples.ann; Examples.bob])
     [Query.SELECT "auth_user" ["*"]] tt).1
  = Eff.Ok (Some Examples.ann)
  ∧ (Operator.getAll
       (MoreExamples.constant_runner [Examples.ann; Examples.bob])
       [Query.SELECT "auth_user" ["*"]] tt).1
    = Eff.Ok [Examples.ann; Examples.bob].
Proof. split; reflexivity. Qed.

